(** * Scheduled maintenance tasks of redash: refresh of queries and schemas

    A shallow embedding of [redash/tasks/queries/maintenance.py]
    ([refresh_queries], [refresh_schema], [refresh_schemas]) together with the
    properties its design document states about them.

    The tasks are effectful: they log, emit metrics, call collaborators
    (parameter substitution, the job queue, the failure report, the schema
    introspection) and read and write a redis hash.  Every such call is
    recorded, in program order, as an [event]; the redis hash
    ["redash:status"] and the number of clock readings are threaded as state;
    exceptions that leave a task are a result of the computation.

    Exceptions are modelled where the code handles them (the two errors of
    the parameter substitution, the errors of the schema introspection) and
    where a conversion or lookup of the task itself fails ([float], [int],
    [get_by_id]).  The job queue, the failure report, the metrics client and
    redis are taken to accept every call. *)

From stdpp Require Import base list strings gmap pretty.

(** ** Data model *)

(** [redash.models.Organization], as far as the tasks read it. *)
Module Organization.
Record t := { id : Z; is_disabled : bool }.
End Organization.

(** [redash.models.DataSource].  [paused] and [pause_reason] are attributes
    for the tasks; [pause_reason] may be [None]. *)
Module DataSource.
Record t := {
  id : Z;
  name : string;
  org : Organization.t;
  paused : bool;
  pause_reason : option string
}.
End DataSource.

(** The value a parameter descriptor carries under its ["value"] key. *)
Inductive pvalue :=
  | PText (s : string)
  | PNumber (n : Z)
  | PValues (l : list string)
  | PRange (start_ end_ : string).

(** One entry of [query.parameters]: [p["name"]] and [p.get("value")], the
    latter [None] when the key is absent or holds null. *)
Module Param.
Record t := { name : string; value : option pvalue }.
End Param.

(** [redash.models.Query]. *)
Module Query.
Record t := {
  id : Z;
  query_text : string;
  parameters : list Param.t;
  org : Organization.t;
  data_source : option DataSource.t;
  user_id : Z
}.
End Query.

(** Python dictionaries with string keys. *)
Abbreviation dict V := (gmap string V).

(** ** Events *)

Inductive level := DEBUG | INFO | WARNING.

(** The exceptions of the model: the timeout signal of the job queue, the
    errors of the conversions and of the lookup by id, and any other error
    with its detail.  All of them derive from Python's [Exception], so
    [except Exception] handles each of them. *)
Inductive exn :=
  | JobTimeoutException
  | ValueError
  | NoResultFound
  | Exception (detail : string).

(** Arguments of a log record, and values of the job metadata;
    [AExcInfo] is the exception a record logged with [exc_info=1] carries. *)
Inductive arg :=
  | AInt (n : Z)
  | AStr (s : string)
  | ANone
  | ASeconds (t : Z)
  | AIds (l : list Z)
  | AExcInfo (e : exn).

Definition arg_of_option (o : option string) : arg :=
  match o with Some s => AStr s | None => ANone end.

(** A value handed to the redis client, which encodes it to a string. *)
Inductive rvalue :=
  | RInt (n : Z)
  | RFloat (t : Z)
  | RStr (s : string).

Inductive event :=
  | Log (lvl : level) (msg : string) (args : list arg)
  | Timing (stat : string)
  | Gauge (stat : string) (v : Z)
  | Incr (stat : string)
  | Apply (query : Query.t) (parameters : dict (option pvalue))
  | TrackFailure (query : Query.t) (error : string)
  | EnqueueQuery (query_text : string) (data_source : DataSource.t)
      (user_id : Z) (scheduled_query : Query.t)
      (metadata : list (string * arg))
  | Hgetall (key : string)
  | Hmset (key : string) (mapping : dict rvalue)
  | Smembers (key : string)
  | GetSchema (ds : DataSource.t) (refresh : bool)
  | Delay (data_source_id : Z).

(** ** Exceptions and collaborators *)

(** Modelled from the spec: the result of the parameter substitution
    collaborator, [query.parameterized.apply(parameters).query], whose module
    [redash.models.parameterized_query] is outside this file:
    [resolve(declared_params, value_map) -> text | InvalidParameter |
    DetachedQuery(inner_id)].  The two errors are the ones [refresh_queries]
    imports and handles. *)
Inductive apply_outcome :=
  | Resolved (query : string)
  | InvalidParameterError (message : string)
  | QueryDetachedFromDataSourceError (query_id : Z).

(** Modelled from the spec: the result of the schema introspection
    collaborator, [ds.get_schema(refresh=True)], which returns or raises the
    timeout signal or any other error. *)
Inductive schema_outcome :=
  | SchemaReturned
  | SchemaRaised (e : exn).

(** What the tasks take from their surroundings: settings, the snapshots of
    the persistent store, the collaborators, the clock, and Python's and the
    redis client's conversions between values and strings.  Timestamps and
    durations are numbers of clock ticks. *)
Record Env := {
  (* settings.FEATURE_DISABLE_REFRESH_QUERIES *)
  FEATURE_DISABLE_REFRESH_QUERIES : bool;
  (* models.Query.outdated_queries() *)
  outdated_queries : list Query.t;
  (* query.parameterized.apply(parameters).query *)
  parameterized_apply : Query.t → dict (option pvalue) → apply_outcome;
  (* time.time(): the n-th reading of the clock *)
  time_time : nat → Z;
  (* float(s) on a stored string; None where it raises ValueError *)
  float : string → option Z;
  (* the string the redis client stores for a float *)
  repr_float : Z → string;
  (* redash.utils.json_dumps on the list of ids *)
  json_dumps : list Z → string;
  (* int(s) on a member of the blacklist; None where it raises ValueError *)
  int : string → option Z;
  (* redis_connection.smembers(key), in the order of iteration *)
  smembers : string → list string;
  (* models.DataSource.query *)
  DataSource_query : list DataSource.t;
  (* models.DataSource.get_by_id; None where no row is found *)
  DataSource_get_by_id : Z → option DataSource.t;
  (* ds.get_schema(refresh=True) *)
  get_schema : DataSource.t → schema_outcome
}.

(** ** The monad of tasks *)

Record state := {
  events : list event;
  redis_status : dict string;
  clock_reads : nat
}.

Inductive result (A : Type) :=
  | Returned (a : A)
  | Raised (e : exn).
Arguments Returned {A} a.
Arguments Raised {A} e.

Definition M (A : Type) : Type := state → result A * state.

Definition ret {A} (a : A) : M A := λ s, (Returned a, s).

Definition bind {A B} (c : M A) (k : A → M B) : M B := λ s,
  match c s with
  | (Returned a, s') => k a s'
  | (Raised e, s') => (Raised e, s')
  end.

Definition raise {A} (e : exn) : M A := λ s, (Raised e, s).

(** A conversion that raises [e] where it has no result. *)
Definition or_raise {A} (e : exn) (o : option A) : M A :=
  match o with
  | Some a => ret a
  | None => raise e
  end.

(** [try: c except e: h e]. *)
Definition try_except {A} (c : M A) (h : exn → M A) : M A := λ s,
  match c s with
  | (Returned a, s') => (Returned a, s')
  | (Raised e, s') => h e s'
  end.

Global Instance M_ret : MRet M := @ret.
Global Instance M_bind : MBind M := λ A B k c, bind c k.

Definition emit (e : event) : M unit := λ s,
  (Returned tt,
   {| events := events s ++ [e];
      redis_status := redis_status s;
      clock_reads := clock_reads s |}).

(** A [for] loop over a list with the loop-carried variables in [acc]. *)
Fixpoint for_each {A S} (l : list A) (body : A → S → M S) (acc : S) : M S :=
  match l with
  | [] => ret acc
  | x :: l' => acc' ← body x acc; for_each l' body acc'
  end.

(** Python's [str] on an [int]. *)
Definition str (n : Z) : string := pretty n.

(** Truth value of a string: the empty string is false. *)
Definition truthy (s : string) : bool :=
  match s with EmptyString => false | String _ _ => true end.

(** [any(d)] on a dictionary iterates over its keys. *)
Definition any {V} (d : dict V) : bool :=
  existsb truthy (map fst (map_to_list d)).

(** [{p["name"]: p.get("value") for p in params}]: a later entry of the
    same name replaces an earlier one. *)
Definition parameters_dict (params : list Param.t) : dict (option pvalue) :=
  foldl (λ d p, <[Param.name p := Param.value p]> d) ∅ params.

(** The redis client's encoding of a value. *)
Definition encode (repr : Z → string) (v : rvalue) : string :=
  match v with
  | RInt n => str n
  | RFloat t => repr t
  | RStr s => s
  end.

Section Tasks.
Variable E : Env.

Definition logger_debug (msg : string) (args : list arg) : M unit :=
  emit (Log DEBUG msg args).
Definition logger_info (msg : string) (args : list arg) : M unit :=
  emit (Log INFO msg args).
Definition logger_warning (msg : string) (args : list arg) : M unit :=
  emit (Log WARNING msg args).

Definition statsd_gauge (stat : string) (v : Z) : M unit := emit (Gauge stat v).
Definition statsd_incr (stat : string) : M unit := emit (Incr stat).

(** [with statsd_client.timer(stat): c]: the timing is sent when the block
    is left, also by an exception. *)
Definition statsd_timer {A} (stat : string) (c : M A) : M A := λ s,
  match c s with
  | (r, s') =>
      match emit (Timing stat) s' with
      | (_, s'') => (r, s'')
      end
  end.

(** [time.time()]: the next reading of the clock. *)
Definition time : M Z := λ s,
  (Returned (time_time E (clock_reads s)),
   {| events := events s;
      redis_status := redis_status s;
      clock_reads := S (clock_reads s) |}).

Definition track_failure (query : Query.t) (error : string) : M unit :=
  emit (TrackFailure query error).

Definition enqueue_query (query_text : string) (data_source : DataSource.t)
    (user_id : Z) (scheduled_query : Query.t)
    (metadata : list (string * arg)) : M unit :=
  emit (EnqueueQuery query_text data_source user_id scheduled_query metadata).

Definition apply (query : Query.t) (parameters : dict (option pvalue))
    : M apply_outcome :=
  emit (Apply query parameters) ;;
  ret (parameterized_apply E query parameters).

(** [redis_connection.hgetall("redash:status")]. *)
Definition hgetall_status : M (dict string) := λ s,
  match emit (Hgetall "redash:status") s with
  | (_, s') => (Returned (redis_status s'), s')
  end.

(** [redis_connection.hmset("redash:status", mapping)]: the fields of the
    mapping are set, the other fields of the hash are kept. *)
Definition hmset_status (mapping : dict rvalue) : M unit := λ s,
  match emit (Hmset "redash:status" mapping) s with
  | (_, s') =>
      (Returned tt,
       {| events := events s';
          redis_status := (encode (repr_float E) <$> mapping) ∪ redis_status s';
          clock_reads := clock_reads s' |})
  end.

(** [float(x)] where [x] is a stored string or, by default, a float. *)
Definition to_float (x : string + Z) : M Z :=
  match x with
  | inl s => or_raise ValueError (float E s)
  | inr t => ret t
  end.

(** [status.get(key, default)]. *)
Definition dict_get (status : dict string) (key : string) (default : Z)
    : string + Z :=
  match status !! key with
  | Some s => inl s
  | None => inr default
  end.

(** The body of the loop of [refresh_queries]; [continue] and the skips
    leave the loop-carried [outdated_queries_count] and [query_ids] as they
    are. *)
Definition refresh_queries_body (query : Query.t) (acc : Z * list Z)
    : M (Z * list Z) :=
  let '(outdated_queries_count, query_ids) := acc in
  if FEATURE_DISABLE_REFRESH_QUERIES E then
    logger_info "Disabled refresh queries." [] ;;
    ret acc
  else if Organization.is_disabled (Query.org query) then
    logger_debug "Skipping refresh of %s because org is disabled."
      [AInt (Query.id query)] ;;
    ret acc
  else
    match Query.data_source query with
    | None =>
        logger_debug "Skipping refresh of %s because the datasource is none."
          [AInt (Query.id query)] ;;
        ret acc
    | Some data_source =>
        if DataSource.paused data_source then
          logger_debug
            "Skipping refresh of %s because datasource - %s is paused (%s)."
            [AInt (Query.id query);
             AStr (DataSource.name data_source);
             arg_of_option (DataSource.pause_reason data_source)] ;;
          ret acc
        else
          let parameters := parameters_dict (Query.parameters query) in
          resolved ←
            (if any parameters then
               outcome ← apply query parameters;
               match outcome with
               | Resolved text => ret (Some text)
               | InvalidParameterError e =>
                   track_failure query
                     ("Skipping refresh of " +:+ str (Query.id query)
                      +:+ " because of invalid parameters: " +:+ e) ;;
                   ret None
               | QueryDetachedFromDataSourceError query_id =>
                   track_failure query
                     ("Skipping refresh of " +:+ str (Query.id query)
                      +:+ " because a related dropdown query ("
                      +:+ str query_id
                      +:+ ") is unattached to any datasource.") ;;
                   ret None
               end
             else ret (Some (Query.query_text query)));
          match resolved with
          | None => ret acc
          | Some query_text =>
              enqueue_query query_text data_source (Query.user_id query) query
                [("Query ID", AInt (Query.id query));
                 ("Username", AStr "Scheduled")] ;;
              ret ((outdated_queries_count + 1)%Z,
                   query_ids ++ [Query.id query])
          end
    end.

Definition refresh_queries : M unit :=
  logger_info "Refreshing queries..." [] ;;
  '(outdated_queries_count, query_ids) ←
    statsd_timer "manager.outdated_queries_lookup"
      (for_each (outdated_queries E) refresh_queries_body (0%Z, []));
  statsd_gauge "manager.outdated_queries" outdated_queries_count ;;
  logger_info "Done refreshing queries. Found %d outdated queries: %s"
    [AInt outdated_queries_count; AIds query_ids] ;;
  status ← hgetall_status;
  now ← time;
  hmset_status
    (<["outdated_queries_count" := RInt outdated_queries_count]>
       (<["last_refresh_at" := RFloat now]>
          (<["query_ids" := RStr (json_dumps E query_ids)]> ∅))) ;;
  last ← to_float (dict_get status "last_refresh_at" now);
  statsd_gauge "manager.seconds_since_refresh" (now - last)%Z.

(** [models.DataSource.get_by_id(data_source_id)]. *)
Definition get_by_id (data_source_id : Z) : M DataSource.t :=
  or_raise NoResultFound (DataSource_get_by_id E data_source_id).

(** [ds.get_schema(refresh=True)]. *)
Definition ds_get_schema (ds : DataSource.t) : M unit :=
  emit (GetSchema ds true) ;;
  match get_schema E ds with
  | SchemaReturned => ret tt
  | SchemaRaised e => raise e
  end.

Definition refresh_schema (data_source_id : Z) : M unit :=
  ds ← get_by_id data_source_id;
  logger_info "task=refresh_schema state=start ds_id=%s"
    [AInt (DataSource.id ds)] ;;
  start_time ← time;
  try_except
    (ds_get_schema ds ;;
     t ← time;
     logger_info "task=refresh_schema state=finished ds_id=%s runtime=%.2f"
       [AInt (DataSource.id ds); ASeconds (t - start_time)] ;;
     statsd_incr "refresh_schema.success")
    (λ e,
       match e with
       | JobTimeoutException =>
           t ← time;
           logger_info "task=refresh_schema state=timeout ds_id=%s runtime=%.2f"
             [AInt (DataSource.id ds); ASeconds (t - start_time)] ;;
           statsd_incr "refresh_schema.timeout"
       | _ =>
           logger_warning "Failed refreshing schema for the data source: %s"
             [AStr (DataSource.name ds); AExcInfo e] ;;
           statsd_incr "refresh_schema.error" ;;
           t ← time;
           logger_info "task=refresh_schema state=failed ds_id=%s runtime=%.2f"
             [AInt (DataSource.id ds); ASeconds (t - start_time)]
       end).

(** [redis_connection.smembers(key)]. *)
Definition redis_smembers (key : string) : M (list string) :=
  emit (Smembers key) ;;
  ret (smembers E key).

(** [[int(ds_id) for ds_id in members if ds_id]]; [None] when some [int]
    raises [ValueError]. *)
Fixpoint blacklist_ids (members : list string) : option (list Z) :=
  match members with
  | [] => Some []
  | ds_id :: rest =>
      if truthy ds_id then
        match int E ds_id with
        | Some n => cons n <$> blacklist_ids rest
        | None => None
        end
      else blacklist_ids rest
  end.

Definition refresh_schemas_body (blacklist : list Z) (ds : DataSource.t)
    (_ : unit) : M unit :=
  if DataSource.paused ds then
    logger_info "task=refresh_schema state=skip ds_id=%s reason=paused(%s)"
      [AInt (DataSource.id ds); arg_of_option (DataSource.pause_reason ds)]
  else if bool_decide (DataSource.id ds ∈ blacklist) then
    logger_info "task=refresh_schema state=skip ds_id=%s reason=blacklist"
      [AInt (DataSource.id ds)]
  else if Organization.is_disabled (DataSource.org ds) then
    logger_info "task=refresh_schema state=skip ds_id=%s reason=org_disabled"
      [AInt (DataSource.id ds)]
  else
    emit (Delay (DataSource.id ds)).

Definition refresh_schemas : M unit :=
  members ← redis_smembers "data_sources:schema:blacklist";
  blacklist ← or_raise ValueError (blacklist_ids members);
  global_start_time ← time;
  logger_info "task=refresh_schemas state=start" [] ;;
  for_each (DataSource_query E) (refresh_schemas_body blacklist) tt ;;
  t ← time;
  logger_info "task=refresh_schemas state=finish total_runtime=%.2f"
    [ASeconds (t - global_start_time)].

End Tasks.

(** ** Running a task *)

(** A task starts with an empty trace, the stored status hash and the number
    of clock readings taken so far. *)
Definition start (status : dict string) (reads : nat) : state :=
  {| events := []; redis_status := status; clock_reads := reads |}.

Definition add_events (s : state) (l : list event) : state :=
  {| events := events s ++ l;
     redis_status := redis_status s;
     clock_reads := clock_reads s |}.

(** What one iteration of the loop of [refresh_queries] adds to the trace. *)
Definition iteration_events (E : Env) (query : Query.t) : list event :=
  events (refresh_queries_body E query (0%Z, []) (start ∅ 0)).2.

Definition dispatched_id (e : event) : option Z :=
  match e with
  | EnqueueQuery _ _ _ scheduled_query _ => Some (Query.id scheduled_query)
  | _ => None
  end.

Definition dispatched_ids (tr : list event) : list Z := omap dispatched_id tr.

(** What the whole loop adds to the trace. *)
Definition loop_events (E : Env) (queries : list Query.t) : list event :=
  queries ≫= iteration_events E.

(** The mapping [refresh_queries] hands to [hmset]. *)
Definition status_mapping (E : Env) (count : Z) (ids : list Z) (now : Z)
    : dict rvalue :=
  <["outdated_queries_count" := RInt count]>
    (<["last_refresh_at" := RFloat now]>
       (<["query_ids" := RStr (json_dumps E ids)]> ∅)).

(** The trace of a pass up to and including the overwrite of the status. *)
Definition pass_events (E : Env) (now : Z) : list event :=
  let ids := dispatched_ids (loop_events E (outdated_queries E)) in
  let count := Z.of_nat (length ids) in
  Log INFO "Refreshing queries..." [] ::
  loop_events E (outdated_queries E) ++
  [Timing "manager.outdated_queries_lookup";
   Gauge "manager.outdated_queries" count;
   Log INFO "Done refreshing queries. Found %d outdated queries: %s"
     [AInt count; AIds ids];
   Hgetall "redash:status";
   Hmset "redash:status" (status_mapping E count ids now)].

(** The status hash after the overwrite. *)
Definition status_after (E : Env) (status : dict string) (now : Z)
    : dict string :=
  let ids := dispatched_ids (loop_events E (outdated_queries E)) in
  (encode (repr_float E) <$> status_mapping E (Z.of_nat (length ids)) ids now)
  ∪ status.

(** ** Eligibility of a query, as the design states it *)

Inductive skip_reason :=
  | FeatureDisabled
  | OrgDisabled
  | NoDataSource
  | DataSourcePaused.

(** The first reason of a list of (reason, signal) pairs whose signal is
    set. *)
Fixpoint first_match {R} (signals : list (R * bool)) : option R :=
  match signals with
  | [] => None
  | (reason, signal) :: rest =>
      if signal then Some reason else first_match rest
  end.

(** The four signals of the query refresh pass, in the order the design
    gives: feature flag, organization, missing data source, paused data
    source. *)
Definition skip_conditions (E : Env) (query : Query.t)
    : list (skip_reason * bool) :=
  [(FeatureDisabled, FEATURE_DISABLE_REFRESH_QUERIES E);
   (OrgDisabled, Organization.is_disabled (Query.org query));
   (NoDataSource, from_option (λ _, false) true (Query.data_source query));
   (DataSourcePaused,
    from_option DataSource.paused false (Query.data_source query))].

Definition skip_message (reason : skip_reason) : string :=
  match reason with
  | FeatureDisabled => "Disabled refresh queries."
  | OrgDisabled => "Skipping refresh of %s because org is disabled."
  | NoDataSource => "Skipping refresh of %s because the datasource is none."
  | DataSourcePaused =>
      "Skipping refresh of %s because datasource - %s is paused (%s)."
  end.

(** The log record of a skip. *)
Definition skip_line (reason : skip_reason) (query : Query.t) : event :=
  match reason with
  | FeatureDisabled => Log INFO (skip_message reason) []
  | OrgDisabled | NoDataSource =>
      Log DEBUG (skip_message reason) [AInt (Query.id query)]
  | DataSourcePaused =>
      Log DEBUG (skip_message reason)
        (AInt (Query.id query) ::
         from_option
           (λ ds, [AStr (DataSource.name ds);
                   arg_of_option (DataSource.pause_reason ds)])
           [] (Query.data_source query))
  end.

Definition enqueue_event (query : Query.t) (ds : DataSource.t)
    (query_text : string) : event :=
  EnqueueQuery query_text ds (Query.user_id query) query
    [("Query ID", AInt (Query.id query)); ("Username", AStr "Scheduled")].

Definition invalid_parameters_message (query : Query.t) (e : string) : string :=
  "Skipping refresh of " +:+ str (Query.id query)
  +:+ " because of invalid parameters: " +:+ e.

Definition detached_message (query : Query.t) (query_id : Z) : string :=
  "Skipping refresh of " +:+ str (Query.id query)
  +:+ " because a related dropdown query (" +:+ str query_id
  +:+ ") is unattached to any datasource.".

(** What an eligible query adds to the trace: the substitution, when the
    guard on the parameters lets it run, and then the dispatch or the
    tracked failure. *)
Definition resolution_events (E : Env) (query : Query.t) (ds : DataSource.t)
    : list event :=
  let parameters := parameters_dict (Query.parameters query) in
  if any parameters then
    Apply query parameters ::
    match parameterized_apply E query parameters with
    | Resolved text => [enqueue_event query ds text]
    | InvalidParameterError e =>
        [TrackFailure query (invalid_parameters_message query e)]
    | QueryDetachedFromDataSourceError query_id =>
        [TrackFailure query (detached_message query query_id)]
    end
  else [enqueue_event query ds (Query.query_text query)].

(** ** Dispositions *)

(** The three dispositions of a candidate; a skip carries the query id of
    its log record when the record has one. *)
Inductive disposition :=
  | Dispatched (query_id : Z)
  | Skipped (reason : skip_reason) (query_id : option Z)
  | TrackedFailure (query_id : Z).

Definition skip_reason_of_message (msg : string) : option skip_reason :=
  if String.eqb msg (skip_message FeatureDisabled) then Some FeatureDisabled
  else if String.eqb msg (skip_message OrgDisabled) then Some OrgDisabled
  else if String.eqb msg (skip_message NoDataSource) then Some NoDataSource
  else if String.eqb msg (skip_message DataSourcePaused)
       then Some DataSourcePaused
  else None.

Definition first_id (args : list arg) : option Z :=
  match args with
  | AInt n :: _ => Some n
  | _ => None
  end.

Definition disposition_of_event (e : event) : option disposition :=
  match e with
  | EnqueueQuery _ _ _ scheduled_query _ =>
      Some (Dispatched (Query.id scheduled_query))
  | TrackFailure query _ => Some (TrackedFailure (Query.id query))
  | Log _ msg args =>
      (λ reason, Skipped reason (first_id args)) <$> skip_reason_of_message msg
  | _ => None
  end.

Definition dispositions (tr : list event) : list disposition :=
  omap disposition_of_event tr.

(** A disposition that names a query names this one. *)
Definition disposition_about (query : Query.t) (d : disposition) : Prop :=
  match d with
  | Dispatched n | TrackedFailure n => n = Query.id query
  | Skipped _ (Some n) => n = Query.id query
  | Skipped _ None => True
  end.

(** The trace of a pass, whatever the stored status. *)
Definition pass_trace (E : Env) (status : dict string) (reads : nat)
    : list event :=
  events (refresh_queries E (start status reads)).2.

(** ** Sample data *)

Definition org_active : Organization.t :=
  {| Organization.id := 1; Organization.is_disabled := false |}.

Definition org_disabled : Organization.t :=
  {| Organization.id := 2; Organization.is_disabled := true |}.

Definition ds_active : DataSource.t :=
  {| DataSource.id := 7; DataSource.name := "pg";
     DataSource.org := org_active; DataSource.paused := false;
     DataSource.pause_reason := None |}.

Definition ds_paused : DataSource.t :=
  {| DataSource.id := 8; DataSource.name := "mysql";
     DataSource.org := org_active; DataSource.paused := true;
     DataSource.pause_reason := Some "maintenance" |}.

Definition ds_of_disabled_org : DataSource.t :=
  {| DataSource.id := 9; DataSource.name := "athena";
     DataSource.org := org_disabled; DataSource.paused := false;
     DataSource.pause_reason := None |}.

Definition q_plain : Query.t :=
  {| Query.id := 11; Query.query_text := "SELECT 1"; Query.parameters := [];
     Query.org := org_active; Query.data_source := Some ds_active;
     Query.user_id := 3 |}.

Definition q_null_param : Query.t :=
  {| Query.id := 12; Query.query_text := "SELECT {{x}}";
     Query.parameters := [{| Param.name := "x"; Param.value := None |}];
     Query.org := org_active; Query.data_source := Some ds_active;
     Query.user_id := 3 |}.

Definition q_paused : Query.t :=
  {| Query.id := 13; Query.query_text := "SELECT 3"; Query.parameters := [];
     Query.org := org_active; Query.data_source := Some ds_paused;
     Query.user_id := 4 |}.

Definition q_detached : Query.t :=
  {| Query.id := 14; Query.query_text := "SELECT {{x}}";
     Query.parameters :=
       [{| Param.name := "x"; Param.value := Some (PText "a") |}];
     Query.org := org_active; Query.data_source := Some ds_active;
     Query.user_id := 4 |}.

(** A substitution collaborator: null for a text parameter is invalid, the
    dropdown query 99 behind the parameter of query 14 is detached. *)
Definition sample_apply (query : Query.t) (parameters : dict (option pvalue))
    : apply_outcome :=
  if (Query.id query =? 12)%Z then
    InvalidParameterError
      "The following parameter values are incompatible with their definitions: x"
  else if (Query.id query =? 14)%Z then QueryDetachedFromDataSourceError 99
  else Resolved (Query.query_text query).

Definition sample_get_schema (ds : DataSource.t) : schema_outcome :=
  if (DataSource.id ds =? 7)%Z then SchemaRaised JobTimeoutException
  else if (DataSource.id ds =? 9)%Z then
    SchemaRaised (Exception "connection refused")
  else SchemaReturned.

Definition sample_env (flag : bool) (queries : list Query.t) : Env :=
  {| FEATURE_DISABLE_REFRESH_QUERIES := flag;
     outdated_queries := queries;
     parameterized_apply := sample_apply;
     time_time := λ n, (1700000060 + Z.of_nat n)%Z;
     float := λ s, if String.eqb s "1700000000.0" then Some 1700000000%Z
                   else None;
     repr_float := λ t, str t +:+ ".0";
     json_dumps := λ l, "[" +:+ String.concat ", " (str <$> l) +:+ "]";
     int := λ s, if String.eqb s "8" then Some 8%Z
                 else if String.eqb s "10" then Some 10%Z else None;
     smembers := λ _, ["8"; ""; "10"];
     DataSource_query := [ds_active; ds_paused; ds_of_disabled_org];
     DataSource_get_by_id := λ n,
       list_find (λ ds, DataSource.id ds = n)
         [ds_active; ds_paused; ds_of_disabled_org] ≫= λ found, Some found.2;
     get_schema := sample_get_schema |}.

(** ** Observations on a trace *)

(** The query an event of a collaborator is about. *)
Definition event_query (e : event) : option Query.t :=
  match e with
  | Apply query _ | TrackFailure query _ | EnqueueQuery _ _ _ query _ =>
      Some query
  | _ => None
  end.

(** The query is dispatched with its stored text. *)
Definition dispatched_unchanged (tr : list event) (query : Query.t) : Prop :=
  ∃ ds, enqueue_event query ds (Query.query_text query) ∈ tr.

(** The substitution of the parameters of the query was called. *)
Definition substitution_invoked (tr : list event) (query : Query.t) : Prop :=
  ∃ parameters, Apply query parameters ∈ tr.

(** The messages the failure report received about the query [query_id]. *)
Definition failure_of (query_id : Z) (e : event) : option string :=
  match e with
  | TrackFailure query error =>
      if decide (Query.id query = query_id) then Some error else None
  | _ => None
  end.

Definition failures_of (tr : list event) (query_id : Z) : list string :=
  omap (failure_of query_id) tr.

(** [needle] occurs in [text]. *)
Definition contains (needle text : string) : Prop :=
  ∃ before after, text = before +:+ needle +:+ after.

(** The values sent to the gauge [stat], in order. *)
Definition gauge_value (stat : string) (e : event) : option Z :=
  match e with
  | Gauge stat' v => if String.eqb stat' stat then Some v else None
  | _ => None
  end.

Definition gauge_values (stat : string) (tr : list event) : list Z :=
  omap (gauge_value stat) tr.

(** The position of the first event with a property. *)
Fixpoint first_index (p : event → bool) (tr : list event) : option nat :=
  match tr with
  | [] => None
  | e :: tr' => if p e then Some 0 else S <$> first_index p tr'
  end.

Definition is_status_overwrite (e : event) : bool :=
  match e with
  | Hmset key _ => String.eqb key "redash:status"
  | _ => false
  end.

Definition is_status_read (e : event) : bool :=
  match e with
  | Hgetall key => String.eqb key "redash:status"
  | _ => false
  end.

Definition is_gauge (stat : string) (e : event) : bool :=
  match e with
  | Gauge stat' _ => String.eqb stat' stat
  | _ => false
  end.

(** The stored status of a pass that follows an earlier one. *)
Definition status_of_earlier_pass : dict string :=
  <["outdated_queries_count" := "2"]>
    (<["last_refresh_at" := "1700000000.0"]>
       (<["query_ids" := "[11, 12]"]> ∅)).

(** ** Outcomes of the schema refresh task *)

(** The terminal outcomes of the task, as the design names them; the task
    reports its outcome in its last log record. *)
Inductive Outcome := Success | TimedOut | Failed.

Definition outcome_of_message (msg : string) : option Outcome :=
  if String.eqb msg
       "task=refresh_schema state=finished ds_id=%s runtime=%.2f"
  then Some Success
  else if String.eqb msg
            "task=refresh_schema state=timeout ds_id=%s runtime=%.2f"
  then Some TimedOut
  else if String.eqb msg
            "task=refresh_schema state=failed ds_id=%s runtime=%.2f"
  then Some Failed
  else None.

Definition outcomes (tr : list event) : list Outcome :=
  omap (λ e, match e with
             | Log _ msg _ => outcome_of_message msg
             | _ => None
             end) tr.

(** The counters incremented, in order. *)
Definition incremented (tr : list event) : list string :=
  omap (λ e, match e with Incr stat => Some stat | _ => None end) tr.

(** ** Eligibility of a data source, as the design states it *)

Inductive schema_skip_reason :=
  | SourcePaused
  | SourceBlacklisted
  | SourceOrgDisabled.

(** The three signals of the scheduler, in the order the design gives:
    paused, blacklisted, organization disabled. *)
Definition schema_skip_conditions (blacklist : list Z) (ds : DataSource.t)
    : list (schema_skip_reason * bool) :=
  [(SourcePaused, DataSource.paused ds);
   (SourceBlacklisted, bool_decide (DataSource.id ds ∈ blacklist));
   (SourceOrgDisabled, Organization.is_disabled (DataSource.org ds))].

Definition schema_skip_line (reason : schema_skip_reason) (ds : DataSource.t)
    : event :=
  match reason with
  | SourcePaused =>
      Log INFO "task=refresh_schema state=skip ds_id=%s reason=paused(%s)"
        [AInt (DataSource.id ds); arg_of_option (DataSource.pause_reason ds)]
  | SourceBlacklisted =>
      Log INFO "task=refresh_schema state=skip ds_id=%s reason=blacklist"
        [AInt (DataSource.id ds)]
  | SourceOrgDisabled =>
      Log INFO "task=refresh_schema state=skip ds_id=%s reason=org_disabled"
        [AInt (DataSource.id ds)]
  end.

(** The one event a data source yields: the line of the first reason that
    applies, or the submission of its task. *)
Definition schema_decision (blacklist : list Z) (ds : DataSource.t) : event :=
  match first_match (schema_skip_conditions blacklist ds) with
  | Some reason => schema_skip_line reason ds
  | None => Delay (DataSource.id ds)
  end.

(** ** Further observations and sample data *)

(** Whether the loop body dispatches the query: it passes the four checks
    and its parameters are not substituted or are substituted with success. *)
Definition dispatches (E : Env) (query : Query.t) : bool :=
  match first_match (skip_conditions E query) with
  | Some _ => false
  | None =>
      if any (parameters_dict (Query.parameters query)) then
        match parameterized_apply E query
                (parameters_dict (Query.parameters query)) with
        | Resolved _ => true
        | _ => false
        end
      else true
  end.

(** The last value among the parameters named [k]. *)
Definition last_value (params : list Param.t) (k : string)
    : option (option pvalue) :=
  Param.value <$> last (filter (λ p, Param.name p = k) params).


(** The sample surroundings with another substitution, another parser of
    stored timestamps and another content of the blacklist. *)
Definition sample_env_with
    (apply : Query.t → dict (option pvalue) → apply_outcome)
    (float : string → option Z) (members : list string)
    (queries : list Query.t) : Env :=
  {| FEATURE_DISABLE_REFRESH_QUERIES := false;
     outdated_queries := queries;
     parameterized_apply := apply;
     time_time := time_time (sample_env false queries);
     float := float;
     repr_float := repr_float (sample_env false queries);
     json_dumps := json_dumps (sample_env false queries);
     int := int (sample_env false queries);
     smembers := λ _, members;
     DataSource_query := DataSource_query (sample_env false queries);
     DataSource_get_by_id := DataSource_get_by_id (sample_env false queries);
     get_schema := get_schema (sample_env false queries) |}.


(** A parser that reads back the timestamps the sample clock gives. *)
Definition float_of_clock (s : string) : option Z :=
  if String.eqb s "1700000060.0" then Some 1700000060%Z
  else if String.eqb s "1700000061.0" then Some 1700000061%Z
  else None.

(** The calls of the schema introspection in a trace, with their [refresh]
    argument. *)
Definition schema_calls (tr : list event) : list (DataSource.t * bool) :=
  omap (λ e, match e with GetSchema ds refresh => Some (ds, refresh)
             | _ => None end) tr.

(** The runtimes the state lines of the schema refresh task report. *)
Definition logged_runtime (e : event) : option Z :=
  match e with
  | Log _ msg [AInt _; ASeconds t] =>
      match outcome_of_message msg with Some _ => Some t | None => None end
  | _ => None
  end.

Definition logged_runtimes (tr : list event) : list Z := omap logged_runtime tr.

(** The data source ids for which a schema refresh task was submitted. *)
Definition submitted (tr : list event) : list Z :=
  omap (λ e, match e with Delay n => Some n | _ => None end) tr.

(** A data source that none of the three signals excludes. *)
Definition source_eligible (blacklist : list Z) (ds : DataSource.t) : bool :=
  negb (DataSource.paused ds)
  && negb (bool_decide (DataSource.id ds ∈ blacklist))
  && negb (Organization.is_disabled (DataSource.org ds)).

(** ** The tasks on the tables of queries and query results *)

(** What [empty_schedules] and [cleanup_query_results] do besides changing
    rows: they log and they commit the session. *)
Inductive db_event :=
  | DbLog (lvl : level) (msg : string) (args : list arg)
  | DbCommit.

(** [empty_schedules]: [past_scheduled_queries] lists the ids of the rows
    that [models.Query.past_scheduled_queries()] returns, [schedules] maps
    the id of each query to its [schedule] column ([None] for null).  The
    assignment [query.schedule = None] changes the row of the query; the
    commit that follows the loop makes the changes the new table. *)
Definition empty_schedules {S : Type} (past_scheduled_queries : list Z)
    (schedules : gmap Z (option S)) : list db_event * gmap Z (option S) :=
  let queries := past_scheduled_queries in
  let schedules' :=
    foldl (λ rows query_id, alter (λ _, None) query_id rows)
      schedules queries in
  ([DbLog INFO "Deleting schedules of past scheduled queries..." [];
    DbCommit;
    DbLog INFO "Deleted %d schedules." [AInt (Z.of_nat (length queries))]],
   schedules').

(** [cleanup_query_results]: [unused max_age] lists the ids that the query
    [models.QueryResult.unused(max_age)] selects, in the order of the
    database, [query_results] is the set of the ids of the table.  The
    delete removes the rows whose id is among the first
    [QUERY_RESULTS_CLEANUP_COUNT] selected ones and returns how many rows it
    removed. *)
Definition cleanup_query_results (QUERY_RESULTS_CLEANUP_COUNT : nat)
    (QUERY_RESULTS_CLEANUP_MAX_AGE : Z) (unused : Z → list Z)
    (query_results : gset Z) : list db_event * gset Z :=
  let unused_query_results := unused QUERY_RESULTS_CLEANUP_MAX_AGE in
  let subquery := take QUERY_RESULTS_CLEANUP_COUNT unused_query_results in
  let deleted := filter (λ id, id ∈ subquery) query_results in
  let deleted_count := size deleted in
  ([DbLog INFO
      "Running query results clean up (removing maximum of %d unused results, that are %d days old or more)"
      [AInt (Z.of_nat QUERY_RESULTS_CLEANUP_COUNT);
       AInt QUERY_RESULTS_CLEANUP_MAX_AGE];
    DbCommit;
    DbLog INFO "Deleted %d unused query results."
      [AInt (Z.of_nat deleted_count)]],
   query_results ∖ deleted).

(** The count a task reports in its last log line. *)
Definition reported_count (evs : list db_event) : option Z :=
  match last evs with
  | Some (DbLog _ _ [AInt n]) => Some n
  | _ => None
  end.

(** * Properties *)

(** ** Basic facts about the monad *)

Ltac unfold_task :=
  unfold mbind, M_bind, bind, or_raise, raise, ret, logger_debug, logger_info,
    logger_warning, statsd_gauge, statsd_incr, track_failure, enqueue_query,
    apply, emit in *.

Lemma add_events_nil s : add_events s [] = s.
Proof. destruct s; unfold add_events; simpl. by rewrite app_nil_r. Qed.

Lemma add_events_app s l1 l2 :
  add_events (add_events s l1) l2 = add_events s (l1 ++ l2).
Proof. unfold add_events; simpl. by rewrite app_assoc. Qed.

Lemma emit_run e s : emit e s = (Returned tt, add_events s [e]).
Proof. reflexivity. Qed.

Lemma dispatched_ids_app l1 l2 :
  dispatched_ids (l1 ++ l2) = dispatched_ids l1 ++ dispatched_ids l2.
Proof. apply omap_app. Qed.

(** ** The loop of [refresh_queries] *)

Lemma refresh_queries_body_run E query count ids s :
  refresh_queries_body E query (count, ids) s =
    (Returned
       ((count + Z.of_nat (length (dispatched_ids (iteration_events E query))))%Z,
        ids ++ dispatched_ids (iteration_events E query)),
     add_events s (iteration_events E query)).
Proof.
  unfold iteration_events, refresh_queries_body.
  destruct (FEATURE_DISABLE_REFRESH_QUERIES E);
    [|destruct (Organization.is_disabled _);
      [|destruct (Query.data_source query) as [ds|];
        [destruct (DataSource.paused ds);
          [|destruct (any _);
            [unfold_task; destruct (parameterized_apply _ _ _)|]]|]]];
    unfold_task; unfold add_events; simpl;
    rewrite <- ?app_assoc, ?Z.add_0_r, ?app_nil_r; reflexivity.
Qed.

Lemma for_each_refresh_queries_body E queries count ids s :
  for_each queries (refresh_queries_body E) (count, ids) s =
    (Returned
       ((count + Z.of_nat (length (dispatched_ids (loop_events E queries))))%Z,
        ids ++ dispatched_ids (loop_events E queries)),
     add_events s (loop_events E queries)).
Proof.
  revert count ids s.
  induction queries as [|query queries IH]; intros count ids s;
    cbn [for_each].
  - unfold ret, loop_events; simpl. by rewrite Z.add_0_r, app_nil_r, add_events_nil.
  - unfold mbind, M_bind, bind.
    rewrite refresh_queries_body_run, IH, add_events_app.
    unfold loop_events. rewrite bind_cons, dispatched_ids_app, length_app.
    rewrite Nat2Z.inj_add, Z.add_assoc, app_assoc. reflexivity.
Qed.

Lemma refresh_queries_run E status reads :
  let now := time_time E reads in
  refresh_queries E (start status reads) =
    match
      match status !! "last_refresh_at" with
      | Some s => float E s
      | None => Some now
      end
    with
    | Some last =>
        (Returned tt,
         {| events :=
              pass_events E now ++
              [Gauge "manager.seconds_since_refresh" (now - last)];
            redis_status := status_after E status now;
            clock_reads := S reads |})
    | None =>
        (Raised ValueError,
         {| events := pass_events E now;
            redis_status := status_after E status now;
            clock_reads := S reads |})
    end.
Proof.
  intros now. unfold refresh_queries, statsd_timer, hgetall_status,
    hmset_status, time, to_float, dict_get.
  unfold_task. rewrite for_each_refresh_queries_body. simpl.
  unfold pass_events, status_after, status_mapping.
  rewrite <- !app_assoc. simpl. fold now.
  destruct (status !! "last_refresh_at") as [str|]; simpl.
  - destruct (float E str); simpl; rewrite <- ?app_assoc; reflexivity.
  - rewrite <- ?app_assoc. reflexivity.
Qed.

Lemma iteration_events_eq E query :
  iteration_events E query =
    match first_match (skip_conditions E query) with
    | Some reason => [skip_line reason query]
    | None =>
        from_option (resolution_events E query) [] (Query.data_source query)
    end.
Proof.
  unfold iteration_events, refresh_queries_body, skip_conditions, first_match,
    resolution_events, skip_line.
  destruct (FEATURE_DISABLE_REFRESH_QUERIES E); [reflexivity|].
  destruct (Organization.is_disabled _); [reflexivity|].
  destruct (Query.data_source query) as [ds|]; [|reflexivity].
  destruct (DataSource.paused ds) eqn:Hp.
  { simpl. rewrite Hp. reflexivity. }
  simpl. rewrite Hp. simpl.
  destruct (any _); [|reflexivity].
  unfold_task. simpl.
  destruct (parameterized_apply _ _ _); reflexivity.
Qed.

(** ** The guard on the parameters *)

Lemma foldl_insert_is_Some (params : list Param.t) (d : dict (option pvalue))
    (k : string) :
  is_Some (foldl (λ d p, <[Param.name p := Param.value p]> d) d params !! k)
  ↔ is_Some (d !! k) ∨ k ∈ Param.name <$> params.
Proof.
  revert d. induction params as [|p params IH]; intros d; simpl.
  - rewrite elem_of_nil. tauto.
  - rewrite IH, elem_of_cons, lookup_insert_is_Some'. intuition congruence.
Qed.

Lemma parameters_dict_is_Some params k :
  is_Some (parameters_dict params !! k) ↔ k ∈ Param.name <$> params.
Proof.
  unfold parameters_dict. rewrite foldl_insert_is_Some, lookup_empty.
  split; [intros [[? ?]|?]; [discriminate|done] | by right].
Qed.

(** [any] on the dictionary of the parameters looks at the names only: it
    holds when some parameter has a non-empty name, whatever the values. *)
Lemma any_parameters_dict params :
  any (parameters_dict params) = existsb (λ p, truthy (Param.name p)) params.
Proof.
  apply Bool.eq_iff_eq_true. unfold any. rewrite !existsb_exists. split.
  - intros (k & Hin & Hk).
    apply list_elem_of_In, list_elem_of_fmap in Hin as ([k' v] & -> & Hin).
    apply elem_of_map_to_list in Hin. simpl in *.
    assert (k' ∈ Param.name <$> params) as Hn
      by (apply parameters_dict_is_Some; eauto).
    apply list_elem_of_fmap in Hn as (p & -> & Hp).
    exists p. split; [by apply list_elem_of_In|done].
  - intros (p & Hin & Hp). apply list_elem_of_In in Hin.
    assert (is_Some (parameters_dict params !! Param.name p)) as [v Hv].
    { apply parameters_dict_is_Some, list_elem_of_fmap. eauto. }
    exists (Param.name p). split; [|done].
    apply list_elem_of_In, list_elem_of_fmap.
    exists (Param.name p, v). split; [done|]. by apply elem_of_map_to_list.
Qed.

(** ** Dispositions of the iterations *)

Lemma skip_line_disposition reason query :
  disposition_of_event (skip_line reason query) =
    Some (Skipped reason
            (match reason with
             | FeatureDisabled => None
             | _ => Some (Query.id query)
             end)).
Proof. by destruct reason. Qed.

Lemma first_match_None_data_source E query :
  first_match (skip_conditions E query) = None →
  ∃ ds, Query.data_source query = Some ds ∧ DataSource.paused ds = false.
Proof.
  unfold skip_conditions; simpl.
  destruct (FEATURE_DISABLE_REFRESH_QUERIES E); [done|].
  destruct (Organization.is_disabled _); [done|].
  destruct (Query.data_source query) as [ds|]; [|done]. simpl.
  destruct (DataSource.paused ds) eqn:Hp; [done|]. eauto.
Qed.

Lemma iteration_disposition E query :
  ∃ d, dispositions (iteration_events E query) = [d] ∧
       disposition_about query d.
Proof.
  rewrite iteration_events_eq.
  destruct (first_match _) as [reason|] eqn:Hm.
  - unfold dispositions. simpl. rewrite skip_line_disposition.
    eexists; split; [done|]. by destruct reason.
  - apply first_match_None_data_source in Hm as (ds & -> & _). simpl.
    unfold resolution_events.
    destruct (any _); [destruct (parameterized_apply _ _ _)|];
      eexists; (split; [reflexivity|done]).
Qed.

Lemma iteration_dispatched_ids E query :
  dispatched_ids (iteration_events E query) `sublist_of` [Query.id query].
Proof.
  rewrite iteration_events_eq.
  destruct (first_match _) as [reason|] eqn:Hm.
  - destruct reason; apply sublist_nil_l.
  - apply first_match_None_data_source in Hm as (ds & -> & _). simpl.
    unfold resolution_events.
    destruct (any _); [destruct (parameterized_apply _ _ _)|]; simpl;
      done || apply sublist_nil_l.
Qed.

Lemma loop_dispositions E queries :
  Forall2 disposition_about queries (dispositions (loop_events E queries)).
Proof.
  induction queries as [|query queries IH]; [constructor|].
  unfold loop_events, dispositions. rewrite bind_cons, omap_app.
  destruct (iteration_disposition E query) as (d & Hd & Hq).
  unfold dispositions in Hd. rewrite Hd. by constructor.
Qed.

Lemma loop_dispatched_ids E queries :
  dispatched_ids (loop_events E queries) `sublist_of` (Query.id <$> queries).
Proof.
  induction queries as [|query queries IH]; [done|].
  unfold loop_events. rewrite bind_cons, dispatched_ids_app.
  change (Query.id <$> query :: queries)
    with ([Query.id query] ++ (Query.id <$> queries)).
  apply sublist_app; [apply iteration_dispatched_ids|done].
Qed.

Lemma pass_trace_eq E status reads :
  ∃ tail,
    pass_trace E status reads = pass_events E (time_time E reads) ++ tail ∧
    (tail = [] ∨ ∃ v, tail = [Gauge "manager.seconds_since_refresh" v]).
Proof.
  unfold pass_trace. rewrite refresh_queries_run.
  destruct (match status !! "last_refresh_at" with
            | Some s => _ | None => _ end); simpl.
  - eexists; split; [done|]. right; eauto.
  - exists []. by rewrite app_nil_r; auto.
Qed.

Lemma pass_dispositions E status reads :
  dispositions (pass_trace E status reads) =
    dispositions (loop_events E (outdated_queries E)).
Proof.
  destruct (pass_trace_eq E status reads) as (tail & -> & Htail).
  unfold dispositions, pass_events. simpl.
  rewrite <- app_assoc, !omap_app. simpl.
  destruct Htail as [->|[v ->]]; simpl; by rewrite app_nil_r.
Qed.

Lemma pass_dispatched_ids E status reads :
  dispatched_ids (pass_trace E status reads) =
    dispatched_ids (loop_events E (outdated_queries E)).
Proof.
  destruct (pass_trace_eq E status reads) as (tail & -> & Htail).
  unfold dispatched_ids, pass_events. simpl.
  rewrite <- app_assoc, !omap_app. simpl.
  destruct Htail as [->|[v ->]]; simpl; by rewrite app_nil_r.
Qed.

(** ** The eligibility checks *)

(** C6: the loop body takes the first of the four skip conditions, in the
    order feature flag, organization disabled, missing data source, paused
    data source, logs that skip and leaves the counters alone; a query that
    meets none of them has a data source and goes on to the resolution of its
    parameters and the dispatch. *)
Theorem refresh_queries_body_first_match E query count ids s :
  match first_match (skip_conditions E query) with
  | Some reason =>
      refresh_queries_body E query (count, ids) s =
        (Returned (count, ids), add_events s [skip_line reason query])
  | None =>
      ∃ ds, Query.data_source query = Some ds ∧
        refresh_queries_body E query (count, ids) s =
          (Returned
             ((count + Z.of_nat (length (dispatched_ids
                                           (resolution_events E query ds))))%Z,
              ids ++ dispatched_ids (resolution_events E query ds)),
           add_events s (resolution_events E query ds))
  end.
Proof.
  rewrite refresh_queries_body_run, iteration_events_eq.
  destruct (first_match _) as [reason|] eqn:Hm.
  - assert (dispatched_ids [skip_line reason query] = []) as ->
      by by destruct reason.
    simpl. by rewrite Z.add_0_r, app_nil_r.
  - apply first_match_None_data_source in Hm as (ds & Hds & _).
    exists ds. by rewrite Hds.
Qed.

(** ** One disposition per candidate *)

(** C2: the dispositions found in the trace of a pass (dispatch, skip,
    tracked failure) correspond one to one, in order, to the outdated
    queries, and no query id is dispatched twice. *)
Theorem one_disposition_per_query E status reads :
  NoDup (Query.id <$> outdated_queries E) →
  Forall2 disposition_about (outdated_queries E)
    (dispositions (pass_trace E status reads)) ∧
  NoDup (dispatched_ids (pass_trace E status reads)).
Proof.
  intros Hnd. rewrite pass_dispositions, pass_dispatched_ids. split.
  - apply loop_dispositions.
  - eapply sublist_NoDup; [exact Hnd|apply loop_dispatched_ids].
Qed.

Lemma one_disposition_per_query_witness :
  NoDup (Query.id <$> [q_plain; q_detached; q_paused]) ∧
  Forall2 disposition_about [q_plain; q_detached; q_paused]
    (dispositions
       (pass_trace (sample_env false [q_plain; q_detached; q_paused]) ∅ 0)) ∧
  NoDup (dispatched_ids
           (pass_trace (sample_env false [q_plain; q_detached; q_paused]) ∅ 0)).
Proof.
  assert (NoDup (Query.id <$> [q_plain; q_detached; q_paused])) as Hnd
    by (apply (bool_decide_unpack _); vm_compute; exact I).
  split; [exact Hnd|].
  exact (one_disposition_per_query
           (sample_env false [q_plain; q_detached; q_paused]) ∅ 0 Hnd).
Defined.

(** The end-to-end example of the design: one query dispatched, one tracked
    as a failure that names the detached query, one skipped as paused; the
    status records one dispatched query. *)
Example end_to_end :
  let E := sample_env false [q_plain; q_detached; q_paused] in
  let '(r, s) := refresh_queries E (start ∅ 0) in
  r = Returned tt ∧
  dispositions (events s) =
    [Dispatched 11; TrackedFailure 14; Skipped DataSourcePaused (Some 13%Z)] ∧
  redis_status s !! "outdated_queries_count" = Some "1" ∧
  redis_status s !! "query_ids" = Some "[11]" ∧
  redis_status s !! "last_refresh_at" = Some "1700000060.0".
Proof. vm_compute. done. Qed.

(** ** Events of a candidate in the trace of a pass *)

Lemma loop_events_elem E queries e :
  e ∈ loop_events E queries ↔
  ∃ query, e ∈ iteration_events E query ∧ query ∈ queries.
Proof. unfold loop_events. apply list_elem_of_bind. Qed.

Lemma loop_events_in_pass_trace E status reads e :
  e ∈ loop_events E (outdated_queries E) → e ∈ pass_trace E status reads.
Proof.
  intros He. destruct (pass_trace_eq E status reads) as (tail & -> & _).
  unfold pass_events. rewrite elem_of_app, elem_of_cons, elem_of_app. auto.
Qed.

Lemma pass_trace_event_query E status reads e query :
  e ∈ pass_trace E status reads → event_query e = Some query →
  e ∈ loop_events E (outdated_queries E).
Proof.
  destruct (pass_trace_eq E status reads) as (tail & -> & Htail).
  unfold pass_events.
  rewrite elem_of_app, elem_of_cons, elem_of_app, !elem_of_cons, elem_of_nil.
  intros [[->|[?|[->|[->|[->|[->|[->|[]]]]]]]]|He] Hq;
    try done; try discriminate.
  destruct Htail as [->|[v ->]].
  - by apply elem_of_nil in He.
  - apply list_elem_of_singleton in He as ->. discriminate.
Qed.

Lemma iteration_event_query E query e query' :
  e ∈ iteration_events E query → event_query e = Some query' →
  query' = query.
Proof.
  rewrite iteration_events_eq.
  destruct (first_match _) as [reason|] eqn:Hm.
  - intros ->%list_elem_of_singleton. by destruct reason.
  - apply first_match_None_data_source in Hm as (ds & -> & _). simpl.
    unfold resolution_events.
    destruct (any _); [destruct (parameterized_apply _ _ _)|];
      rewrite ?elem_of_cons, elem_of_nil;
      intros He Hq; destruct_or?; subst; simpl in Hq; congruence.
Qed.

(** An event about [query] in the trace of a pass comes from an iteration
    for [query]. *)
Lemma pass_trace_iteration E status reads e query :
  e ∈ pass_trace E status reads → event_query e = Some query →
  e ∈ iteration_events E query ∧ query ∈ outdated_queries E.
Proof.
  intros He Hq.
  pose proof (pass_trace_event_query _ _ _ _ _ He Hq) as Hl.
  apply loop_events_elem in Hl as (query' & He' & Hin).
  by rewrite (iteration_event_query _ _ _ _ He' Hq).
Qed.

Lemma iteration_in_pass_trace E status reads e query :
  query ∈ outdated_queries E → e ∈ iteration_events E query →
  e ∈ pass_trace E status reads.
Proof.
  intros Hin He. apply loop_events_in_pass_trace, loop_events_elem. eauto.
Qed.

(** ** Queries whose parameters are not substituted *)

Lemma any_parameters_dict_unnamed params :
  Forall (λ p, Param.name p = "") params →
  any (parameters_dict params) = false.
Proof.
  intros Hall. rewrite any_parameters_dict.
  induction Hall as [|p params Hp _ IH]; [done|].
  simpl. by rewrite Hp, IH.
Qed.

(** C1, as the design states it, fails: a query that passes the four checks
    and has one parameter named [x] whose value is null goes through the
    substitution, which rejects the null, and is not dispatched. *)
Lemma null_values_still_substituted :
  q_null_param ∈ outdated_queries (sample_env false [q_null_param]) ∧
  first_match (skip_conditions (sample_env false [q_null_param]) q_null_param)
    = None ∧
  Forall (λ p, Param.value p = None) (Query.parameters q_null_param) ∧
  substitution_invoked
    (pass_trace (sample_env false [q_null_param]) ∅ 0) q_null_param ∧
  ¬ dispatched_unchanged
      (pass_trace (sample_env false [q_null_param]) ∅ 0) q_null_param.
Proof.
  split; [by apply list_elem_of_singleton|].
  split; [reflexivity|].
  split; [by repeat constructor|].
  split.
  - exists (parameters_dict (Query.parameters q_null_param)).
    apply list_elem_of_In. vm_compute. tauto.
  - intros [ds Hin]. apply list_elem_of_In in Hin. vm_compute in Hin.
    intuition discriminate.
Qed.

(** C1, amended: the guard looks at the names of the parameters.  A query
    that passes the four checks and none of whose parameters has a non-empty
    name (a query without parameters, for one) is dispatched with its stored
    text, and the substitution is not called for it. *)
Theorem unnamed_parameters_dispatch_unchanged E status reads query :
  query ∈ outdated_queries E →
  first_match (skip_conditions E query) = None →
  Forall (λ p, Param.name p = "") (Query.parameters query) →
  dispatched_unchanged (pass_trace E status reads) query ∧
  ¬ substitution_invoked (pass_trace E status reads) query.
Proof.
  intros Hin Hm Hnames.
  assert (∃ ds, iteration_events E query =
                [enqueue_event query ds (Query.query_text query)])
    as [ds Hit].
  { rewrite iteration_events_eq, Hm.
    apply first_match_None_data_source in Hm as (ds & -> & _).
    exists ds. simpl. unfold resolution_events.
    by rewrite any_parameters_dict_unnamed. }
  split.
  - exists ds. apply (iteration_in_pass_trace _ _ _ _ query); [done|].
    rewrite Hit. by apply list_elem_of_singleton.
  - intros [parameters He].
    apply (pass_trace_iteration _ _ _ _ query) in He as [He _]; [|done].
    rewrite Hit in He. by apply list_elem_of_singleton in He.
Qed.

Lemma unnamed_parameters_dispatch_unchanged_witness :
  dispatched_unchanged
    (pass_trace (sample_env false [q_plain; q_null_param]) ∅ 0) q_plain ∧
  ¬ substitution_invoked
      (pass_trace (sample_env false [q_plain; q_null_param]) ∅ 0) q_plain.
Proof.
  apply (unnamed_parameters_dispatch_unchanged
           (sample_env false [q_plain; q_null_param]) ∅ 0 q_plain).
  - apply list_elem_of_In. simpl. tauto.
  - reflexivity.
  - simpl. constructor.
Defined.

(** ** The log line of a skip *)

(** C9, as the design states it, fails for the feature flag: with the flag
    set the query 11 is skipped and no log record of the pass carries its
    id. *)
Lemma feature_disabled_line_without_id :
  q_plain ∈ outdated_queries (sample_env true [q_plain]) ∧
  first_match (skip_conditions (sample_env true [q_plain]) q_plain)
    = Some FeatureDisabled ∧
  ¬ ∃ lvl msg args,
      Log lvl msg args ∈ pass_trace (sample_env true [q_plain]) ∅ 0 ∧
      AInt (Query.id q_plain) ∈ args.
Proof.
  split; [by apply list_elem_of_singleton|].
  split; [reflexivity|].
  intros (lvl & msg & args & Hin & Hid).
  apply list_elem_of_In in Hin. vm_compute in Hin.
  repeat (destruct Hin as [Hin|Hin]; [try discriminate|]);
    try (injection Hin as <- <- <-); try done.
  - by apply elem_of_nil in Hid.
  - by apply elem_of_nil in Hid.
  - apply elem_of_cons in Hid as [Hid|Hid]; [discriminate|].
    apply list_elem_of_singleton in Hid. discriminate.
Qed.

(** C9, amended: the line of a skip for a disabled organization, a missing
    data source or a paused data source carries the id of the query, and for
    the paused data source its name and pause reason as well; the line of a
    skip for the feature flag is the fixed text without arguments. *)
Theorem skip_line_in_trace E status reads query reason :
  query ∈ outdated_queries E →
  first_match (skip_conditions E query) = Some reason →
  match reason with
  | FeatureDisabled =>
      Log INFO "Disabled refresh queries." [] ∈ pass_trace E status reads
  | OrgDisabled =>
      Log DEBUG "Skipping refresh of %s because org is disabled."
        [AInt (Query.id query)] ∈ pass_trace E status reads
  | NoDataSource =>
      Log DEBUG "Skipping refresh of %s because the datasource is none."
        [AInt (Query.id query)] ∈ pass_trace E status reads
  | DataSourcePaused =>
      ∃ ds, Query.data_source query = Some ds ∧
        Log DEBUG
          "Skipping refresh of %s because datasource - %s is paused (%s)."
          [AInt (Query.id query); AStr (DataSource.name ds);
           arg_of_option (DataSource.pause_reason ds)]
        ∈ pass_trace E status reads
  end.
Proof.
  intros Hin Hm.
  assert (skip_line reason query ∈ pass_trace E status reads) as Hline.
  { apply (iteration_in_pass_trace _ _ _ _ query); [done|].
    rewrite iteration_events_eq, Hm. by apply list_elem_of_singleton. }
  destruct reason; try exact Hline.
  unfold skip_conditions in Hm. simpl in Hm.
  destruct (FEATURE_DISABLE_REFRESH_QUERIES E); [done|].
  destruct (Organization.is_disabled _); [done|].
  unfold skip_line in Hline.
  destruct (Query.data_source query) as [ds|]; [|done].
  exists ds. split; [done|exact Hline].
Qed.

Lemma skip_line_in_trace_witness :
  ∃ ds, Query.data_source q_paused = Some ds ∧
    Log DEBUG
      "Skipping refresh of %s because datasource - %s is paused (%s)."
      [AInt (Query.id q_paused); AStr (DataSource.name ds);
       arg_of_option (DataSource.pause_reason ds)]
    ∈ pass_trace (sample_env false [q_plain; q_paused]) ∅ 0.
Proof.
  apply (skip_line_in_trace (sample_env false [q_plain; q_paused]) ∅ 0
           q_paused DataSourcePaused).
  - apply list_elem_of_In. simpl. tauto.
  - reflexivity.
Defined.

(** ** A detached dropdown query *)

Lemma string_app_assoc (s1 s2 s3 : string) :
  (s1 +:+ s2) +:+ s3 = s1 +:+ s2 +:+ s3.
Proof.
  induction s1 as [|a s1 IH]; [reflexivity|].
  cbv [String.append]; fold String.append. by rewrite IH.
Qed.

Lemma detached_message_contains query inner :
  contains (str (Query.id query)) (detached_message query inner) ∧
  contains (str inner) (detached_message query inner).
Proof.
  unfold detached_message. split.
  - eexists _, _. reflexivity.
  - exists ("Skipping refresh of " +:+ str (Query.id query)
            +:+ " because a related dropdown query ("),
           ") is unattached to any datasource.".
    by rewrite !string_app_assoc.
Qed.

Lemma failures_of_loop_other E queries query_id :
  query_id ∉ Query.id <$> queries →
  failures_of (loop_events E queries) query_id = [].
Proof.
  intros Hnot. unfold failures_of.
  induction queries as [|query queries IH]; [done|].
  rewrite fmap_cons, not_elem_of_cons in Hnot. destruct Hnot as [Hne Hnot].
  unfold loop_events in *. rewrite bind_cons, omap_app, (IH Hnot), app_nil_r.
  assert (∀ l, (∀ e, e ∈ l → failure_of query_id e = None) →
               omap (failure_of query_id) l = []) as Hnone.
  { induction l as [|e l IHl]; intros Hl; [done|].
    simpl. rewrite (Hl e) by constructor.
    apply IHl. intros e' He'. apply Hl. by constructor. }
  apply Hnone. intros e He. destruct e; try done. simpl.
  rewrite (iteration_event_query _ _ _ query0 He eq_refl).
  by destruct (decide _).
Qed.

Lemma dispatched_ids_loop_elem E queries query_id :
  query_id ∈ dispatched_ids (loop_events E queries) →
  query_id ∈ Query.id <$> queries.
Proof.
  intros Hin. eapply elem_of_sublist; [exact Hin|]. apply loop_dispatched_ids.
Qed.

Lemma loop_events_app E l1 l2 :
  loop_events E (l1 ++ l2) = loop_events E l1 ++ loop_events E l2.
Proof. unfold loop_events. apply bind_app. Qed.

(** C5: a candidate that passes the checks and whose substitution raises the
    detached-query error is not dispatched; the failure report receives one
    entry for it, with a message that contains its id and the id of the
    detached query; the candidates before and after it are processed as
    usual. *)
Theorem detached_query_tracked E status reads before query after inner :
  NoDup (Query.id <$> outdated_queries E) →
  outdated_queries E = before ++ query :: after →
  first_match (skip_conditions E query) = None →
  any (parameters_dict (Query.parameters query)) = true →
  parameterized_apply E query (parameters_dict (Query.parameters query))
    = QueryDetachedFromDataSourceError inner →
  (Query.id query ∉ dispatched_ids (pass_trace E status reads)) ∧
  failures_of (pass_trace E status reads) (Query.id query)
    = [detached_message query inner] ∧
  contains (str (Query.id query)) (detached_message query inner) ∧
  contains (str inner) (detached_message query inner) ∧
  ∃ rest,
    pass_trace E status reads =
      Log INFO "Refreshing queries..." [] ::
      loop_events E before ++
      [Apply query (parameters_dict (Query.parameters query));
       TrackFailure query (detached_message query inner)] ++
      loop_events E after ++
      Timing "manager.outdated_queries_lookup" :: rest.
Proof.
  intros Hnd Hq Hm Hany Hout.
  assert (iteration_events E query =
          [Apply query (parameters_dict (Query.parameters query));
           TrackFailure query (detached_message query inner)]) as Hit.
  { rewrite iteration_events_eq, Hm.
    apply first_match_None_data_source in Hm as (ds & -> & _). simpl.
    unfold resolution_events. by rewrite Hany, Hout. }
  assert (loop_events E (outdated_queries E) =
          loop_events E before ++ iteration_events E query
          ++ loop_events E after) as Hloop.
  { rewrite Hq, loop_events_app. unfold loop_events at 2.
    by rewrite bind_cons. }
  rewrite Hq, fmap_app, fmap_cons in Hnd.
  apply NoDup_app in Hnd as (_ & Hbefore & Hafter).
  apply NoDup_cons in Hafter as (Hafter & _).
  assert (Query.id query ∉ Query.id <$> before) as Hb.
  { intros Hin. apply (Hbefore _ Hin). constructor. }
  split; [|split; [|split; [|split]]].
  - rewrite pass_dispatched_ids, Hloop, Hit, !dispatched_ids_app. simpl.
    rewrite elem_of_app.
    intros [Hin|Hin]; by apply dispatched_ids_loop_elem in Hin.
  - destruct (pass_trace_eq E status reads) as (tail & -> & Htail).
    unfold failures_of, pass_events. simpl.
    rewrite <- !app_assoc, !omap_app, Hloop, Hit, !omap_app.
    fold (failures_of (loop_events E before) (Query.id query)).
    fold (failures_of (loop_events E after) (Query.id query)).
    rewrite !failures_of_loop_other by done. simpl.
    destruct (decide _); [|done].
    by destruct Htail as [->|[v ->]].
  - apply detached_message_contains.
  - apply detached_message_contains.
  - destruct (pass_trace_eq E status reads) as (tail & -> & _).
    unfold pass_events. rewrite Hloop, Hit. simpl.
    eexists. rewrite <- !app_assoc. simpl. reflexivity.
Qed.

Lemma detached_query_tracked_witness :
  (Query.id q_detached ∉
     dispatched_ids
       (pass_trace (sample_env false [q_plain; q_detached; q_paused]) ∅ 0)) ∧
  failures_of
    (pass_trace (sample_env false [q_plain; q_detached; q_paused]) ∅ 0)
    (Query.id q_detached)
    = ["Skipping refresh of 14 because a related dropdown query (99) is unattached to any datasource."].
Proof.
  pose proof (detached_query_tracked
                (sample_env false [q_plain; q_detached; q_paused]) ∅ 0
                [q_plain] q_detached [q_paused] 99) as H.
  destruct H as (Hnot & Hfail & _).
  - apply (bool_decide_unpack _). vm_compute. exact I.
  - reflexivity.
  - reflexivity.
  - vm_compute. reflexivity.
  - reflexivity.
  - split; [exact Hnot|exact Hfail].
Defined.

(** ** The status record *)

Lemma gauge_values_loop E stat queries :
  gauge_values stat (loop_events E queries) = [].
Proof.
  unfold gauge_values, loop_events.
  induction queries as [|query queries IH]; [done|].
  rewrite bind_cons, omap_app, IH, app_nil_r, iteration_events_eq.
  destruct (first_match _) as [reason|]; [by destruct reason|].
  destruct (Query.data_source query) as [ds|]; [|done]. simpl.
  unfold resolution_events.
  by destruct (any _); [destruct (parameterized_apply _ _ _)|].
Qed.

Lemma status_after_fields E status now :
  status_after E status now !! "outdated_queries_count" =
    Some (str (Z.of_nat (length (dispatched_ids
                                   (loop_events E (outdated_queries E)))))) ∧
  status_after E status now !! "last_refresh_at" = Some (repr_float E now) ∧
  status_after E status now !! "query_ids" =
    Some (json_dumps E (dispatched_ids (loop_events E (outdated_queries E)))).
Proof.
  unfold status_after, status_mapping.
  repeat split; apply lookup_union_Some_l; rewrite lookup_fmap;
    by simplify_map_eq.
Qed.

(** C7: with no outdated query the gauge of the dispatched count receives 0,
    and the status is overwritten all the same: the count is 0, the
    timestamp is the clock reading of this pass, the id list is the empty
    list. *)
Theorem empty_pass_overwrites_status E status reads :
  outdated_queries E = [] →
  gauge_values "manager.outdated_queries" (pass_trace E status reads) = [0%Z] ∧
  Hmset "redash:status"
    (<["outdated_queries_count" := RInt 0]>
       (<["last_refresh_at" := RFloat (time_time E reads)]>
          (<["query_ids" := RStr (json_dumps E [])]> ∅)))
    ∈ pass_trace E status reads ∧
  redis_status (refresh_queries E (start status reads)).2
    !! "outdated_queries_count" = Some "0" ∧
  redis_status (refresh_queries E (start status reads)).2
    !! "last_refresh_at" = Some (repr_float E (time_time E reads)) ∧
  redis_status (refresh_queries E (start status reads)).2
    !! "query_ids" = Some (json_dumps E []).
Proof.
  intros Hempty.
  pose proof (status_after_fields E status (time_time E reads)) as Hfields.
  unfold pass_trace. rewrite refresh_queries_run. cbv zeta.
  assert (pass_events E (time_time E reads) =
          [Log INFO "Refreshing queries..." [];
           Timing "manager.outdated_queries_lookup";
           Gauge "manager.outdated_queries" 0;
           Log INFO "Done refreshing queries. Found %d outdated queries: %s"
             [AInt 0; AIds []];
           Hgetall "redash:status";
           Hmset "redash:status" (status_mapping E 0 [] (time_time E reads))])
    as Hev by (unfold pass_events; by rewrite Hempty).
  rewrite Hempty in Hfields. simpl in Hfields.
  destruct (match status !! "last_refresh_at" with
            | Some s => _ | None => _ end);
    cbn [snd events redis_status]; rewrite Hev;
    (split; [done|]); (split; [|exact Hfields]);
    unfold status_mapping; rewrite ?elem_of_app, !elem_of_cons; tauto.
Qed.

Lemma empty_pass_overwrites_status_witness :
  gauge_values "manager.outdated_queries"
    (pass_trace (sample_env false []) ∅ 0) = [0%Z] ∧
  redis_status (refresh_queries (sample_env false []) (start ∅ 0)).2
    !! "query_ids" = Some "[]".
Proof.
  pose proof (empty_pass_overwrites_status (sample_env false []) ∅ 0 eq_refl)
    as (Hgauge & _ & _ & _ & Hids).
  split; [exact Hgauge|exact Hids].
Defined.

(** C8, as the design states it, fails in the order of the last two steps:
    the status is read at position 4, overwritten at position 5, and the
    gauge of the seconds since the last refresh is emitted after that, at
    position 6, not before the overwrite. *)
Lemma seconds_gauge_after_overwrite :
  first_index is_status_read
    (pass_trace (sample_env false []) status_of_earlier_pass 0) = Some 4 ∧
  first_index is_status_overwrite
    (pass_trace (sample_env false []) status_of_earlier_pass 0) = Some 5 ∧
  first_index (is_gauge "manager.seconds_since_refresh")
    (pass_trace (sample_env false []) status_of_earlier_pass 0) = Some 6 ∧
  ¬ ∃ i j,
      first_index (is_gauge "manager.seconds_since_refresh")
        (pass_trace (sample_env false []) status_of_earlier_pass 0) = Some i ∧
      first_index is_status_overwrite
        (pass_trace (sample_env false []) status_of_earlier_pass 0) = Some j ∧
      i < j.
Proof.
  assert (first_index is_status_overwrite
            (pass_trace (sample_env false []) status_of_earlier_pass 0)
          = Some 5) as Hw by (vm_compute; reflexivity).
  assert (first_index (is_gauge "manager.seconds_since_refresh")
            (pass_trace (sample_env false []) status_of_earlier_pass 0)
          = Some 6) as Hg by (vm_compute; reflexivity).
  split; [vm_compute; reflexivity|].
  split; [exact Hw|]. split; [exact Hg|].
  intros (i & j & Hi & Hj & Hlt). rewrite Hg in Hi. rewrite Hw in Hj.
  simplify_eq. lia.
Qed.

(** C8, amended: when the status holds a timestamp of an earlier pass, the
    pass ends with these steps in this order: the gauge of the dispatched
    count, the log record, the read of the status, the clock reading, the
    overwrite of the three fields with the new count, timestamp and id list,
    and then the gauge of the seconds since the timestamp that was read
    before the overwrite. *)
Theorem status_read_then_overwritten E status reads stored last :
  status !! "last_refresh_at" = Some stored →
  float E stored = Some last →
  let ids := dispatched_ids (loop_events E (outdated_queries E)) in
  let count := Z.of_nat (length ids) in
  let now := time_time E reads in
  let mapping :=
    <["outdated_queries_count" := RInt count]>
      (<["last_refresh_at" := RFloat now]>
         (<["query_ids" := RStr (json_dumps E ids)]> ∅)) in
  refresh_queries E (start status reads) =
    (Returned tt,
     {| events :=
          Log INFO "Refreshing queries..." [] ::
          loop_events E (outdated_queries E) ++
          [Timing "manager.outdated_queries_lookup";
           Gauge "manager.outdated_queries" count;
           Log INFO "Done refreshing queries. Found %d outdated queries: %s"
             [AInt count; AIds ids];
           Hgetall "redash:status";
           Hmset "redash:status" mapping;
           Gauge "manager.seconds_since_refresh" (now - last)];
        redis_status := (encode (repr_float E) <$> mapping) ∪ status;
        clock_reads := S reads |}).
Proof.
  intros Hstored Hfloat ids count now mapping.
  rewrite refresh_queries_run. cbv zeta. rewrite Hstored, Hfloat.
  unfold pass_events, status_after, status_mapping. simpl.
  by rewrite <- app_assoc.
Qed.

Lemma status_read_then_overwritten_witness :
  events (refresh_queries (sample_env false [q_plain])
            (start status_of_earlier_pass 0)).2 =
    [Log INFO "Refreshing queries..." [];
     enqueue_event q_plain ds_active "SELECT 1";
     Timing "manager.outdated_queries_lookup";
     Gauge "manager.outdated_queries" 1;
     Log INFO "Done refreshing queries. Found %d outdated queries: %s"
       [AInt 1; AIds [11%Z]];
     Hgetall "redash:status";
     Hmset "redash:status"
       (<["outdated_queries_count" := RInt 1]>
          (<["last_refresh_at" := RFloat 1700000060]>
             (<["query_ids" := RStr "[11]"]> ∅)));
     Gauge "manager.seconds_since_refresh" 60].
Proof.
  rewrite (status_read_then_overwritten (sample_env false [q_plain])
             status_of_earlier_pass 0 "1700000000.0" 1700000000
             eq_refl eq_refl).
  reflexivity.
Defined.

(** C10: when the status holds no timestamp of an earlier pass, the pass
    returns and the gauge of the seconds since the last refresh receives one
    value, 0, as its last event. *)
Theorem first_pass_gauge_zero E status reads :
  status !! "last_refresh_at" = None →
  (refresh_queries E (start status reads)).1 = Returned tt ∧
  gauge_values "manager.seconds_since_refresh" (pass_trace E status reads)
    = [0%Z] ∧
  last (pass_trace E status reads)
    = Some (Gauge "manager.seconds_since_refresh" 0).
Proof.
  intros Hnone. unfold pass_trace. rewrite refresh_queries_run. cbv zeta.
  rewrite Hnone. cbn [fst snd events]. rewrite Z.sub_diag.
  split; [done|]. split; [|by rewrite last_snoc].
  unfold gauge_values, pass_events. simpl.
  rewrite <- app_assoc, !omap_app.
  fold (gauge_values "manager.seconds_since_refresh"
          (loop_events E (outdated_queries E))).
  by rewrite gauge_values_loop.
Qed.

Lemma first_pass_gauge_zero_witness :
  gauge_values "manager.seconds_since_refresh"
    (pass_trace (sample_env false [q_plain; q_detached]) ∅ 0) = [0%Z].
Proof.
  exact (proj1 (proj2 (first_pass_gauge_zero
                         (sample_env false [q_plain; q_detached]) ∅ 0
                         eq_refl))).
Defined.

(** ** The schema refresh task *)

Lemma refresh_schema_run E data_source_id status reads ds :
  DataSource_get_by_id E data_source_id = Some ds →
  refresh_schema E data_source_id (start status reads) =
    (Returned tt,
     {| events :=
          Log INFO "task=refresh_schema state=start ds_id=%s"
            [AInt (DataSource.id ds)] ::
          GetSchema ds true ::
          match get_schema E ds with
          | SchemaReturned =>
              [Log INFO
                 "task=refresh_schema state=finished ds_id=%s runtime=%.2f"
                 [AInt (DataSource.id ds);
                  ASeconds (time_time E (S reads) - time_time E reads)];
               Incr "refresh_schema.success"]
          | SchemaRaised JobTimeoutException =>
              [Log INFO
                 "task=refresh_schema state=timeout ds_id=%s runtime=%.2f"
                 [AInt (DataSource.id ds);
                  ASeconds (time_time E (S reads) - time_time E reads)];
               Incr "refresh_schema.timeout"]
          | SchemaRaised e =>
              [Log WARNING "Failed refreshing schema for the data source: %s"
                 [AStr (DataSource.name ds); AExcInfo e];
               Incr "refresh_schema.error";
               Log INFO
                 "task=refresh_schema state=failed ds_id=%s runtime=%.2f"
                 [AInt (DataSource.id ds);
                  ASeconds (time_time E (S reads) - time_time E reads)]]
          end;
        redis_status := status;
        clock_reads := S (S reads) |}).
Proof.
  intros Hds. unfold refresh_schema, get_by_id, try_except, ds_get_schema, time.
  rewrite Hds. unfold_task. simpl.
  destruct (get_schema E ds) as [|[]]; reflexivity.
Qed.

(** C3: when the introspection raises, the task returns without raising.
    On the timeout signal its outcome is [TimedOut] and the only counter it
    increments, once, is the timeout counter; on any other exception its
    outcome is [Failed] and the counter it increments is the error counter. *)
Theorem refresh_schema_exception E data_source_id status reads ds e :
  DataSource_get_by_id E data_source_id = Some ds →
  get_schema E ds = SchemaRaised e →
  (refresh_schema E data_source_id (start status reads)).1 = Returned tt ∧
  outcomes (events (refresh_schema E data_source_id (start status reads)).2)
    = [match e with JobTimeoutException => TimedOut | _ => Failed end] ∧
  incremented (events (refresh_schema E data_source_id (start status reads)).2)
    = [match e with
       | JobTimeoutException => "refresh_schema.timeout"
       | _ => "refresh_schema.error"
       end].
Proof.
  intros Hds He. rewrite (refresh_schema_run _ _ _ _ _ Hds), He.
  by destruct e.
Qed.

Lemma refresh_schema_exception_witness :
  (refresh_schema (sample_env false []) 7 (start ∅ 0)).1 = Returned tt ∧
  outcomes (events (refresh_schema (sample_env false []) 7 (start ∅ 0)).2)
    = [TimedOut] ∧
  incremented (events (refresh_schema (sample_env false []) 7 (start ∅ 0)).2)
    = ["refresh_schema.timeout"].
Proof.
  exact (refresh_schema_exception (sample_env false []) 7 ∅ 0 ds_active
           JobTimeoutException eq_refl eq_refl).
Defined.

Example refresh_schema_other_exception :
  (refresh_schema (sample_env false []) 9 (start ∅ 0)).1 = Returned tt ∧
  outcomes (events (refresh_schema (sample_env false []) 9 (start ∅ 0)).2)
    = [Failed] ∧
  incremented (events (refresh_schema (sample_env false []) 9 (start ∅ 0)).2)
    = ["refresh_schema.error"].
Proof. vm_compute. done. Qed.

(** ** The schema refresh scheduler *)

Lemma refresh_schemas_body_run blacklist ds s :
  refresh_schemas_body blacklist ds tt s =
    (Returned tt, add_events s [schema_decision blacklist ds]).
Proof.
  unfold refresh_schemas_body, schema_decision, schema_skip_conditions.
  simpl.
  destruct (DataSource.paused ds); [reflexivity|].
  destruct (bool_decide _); [reflexivity|].
  destruct (Organization.is_disabled _); reflexivity.
Qed.

Lemma for_each_refresh_schemas_body blacklist sources s :
  for_each sources (refresh_schemas_body blacklist) tt s =
    (Returned tt, add_events s (schema_decision blacklist <$> sources)).
Proof.
  revert s. induction sources as [|ds sources IH]; intros s; cbn [for_each].
  - unfold ret. by rewrite add_events_nil.
  - unfold mbind, M_bind, bind.
    by rewrite refresh_schemas_body_run, IH, add_events_app.
Qed.

Lemma refresh_schemas_run E status reads blacklist :
  blacklist_ids E (smembers E "data_sources:schema:blacklist")
    = Some blacklist →
  refresh_schemas E (start status reads) =
    (Returned tt,
     {| events :=
          Smembers "data_sources:schema:blacklist" ::
          Log INFO "task=refresh_schemas state=start" [] ::
          (schema_decision blacklist <$> DataSource_query E) ++
          [Log INFO "task=refresh_schemas state=finish total_runtime=%.2f"
             [ASeconds (time_time E (S reads) - time_time E reads)]];
        redis_status := status;
        clock_reads := S (S reads) |}).
Proof.
  intros Hbl. unfold refresh_schemas, redis_smembers, time.
  unfold_task. simpl. rewrite Hbl. simpl.
  rewrite for_each_refresh_schemas_body. unfold add_events. simpl.
  reflexivity.
Qed.

Lemma NoDup_fmap_id_eq (sources : list DataSource.t) ds ds' :
  NoDup (DataSource.id <$> sources) →
  ds ∈ sources → ds' ∈ sources → DataSource.id ds = DataSource.id ds' →
  ds = ds'.
Proof.
  induction sources as [|x sources IH]; intros Hnd Hin Hin' Hid.
  { by apply elem_of_nil in Hin. }
  rewrite fmap_cons in Hnd. apply NoDup_cons in Hnd as [Hx Hnd].
  apply elem_of_cons in Hin as [->|Hin];
    apply elem_of_cons in Hin' as [->|Hin']; auto.
  - exfalso. apply Hx. rewrite Hid. apply list_elem_of_fmap. eauto.
  - exfalso. apply Hx. rewrite <- Hid. apply list_elem_of_fmap. eauto.
Qed.

(** C4: the scheduler reads the blacklist, and each data source yields one
    event: the log line of the first of paused, blacklisted, organization
    disabled that applies, or the submission of its task.  A data source
    that is paused and blacklisted is logged as paused, and no line of the
    pass gives it the reason blacklist. *)
Theorem refresh_schemas_first_match E status reads blacklist :
  blacklist_ids E (smembers E "data_sources:schema:blacklist")
    = Some blacklist →
  (refresh_schemas E (start status reads)).1 = Returned tt ∧
  events (refresh_schemas E (start status reads)).2 =
    Smembers "data_sources:schema:blacklist" ::
    Log INFO "task=refresh_schemas state=start" [] ::
    (schema_decision blacklist <$> DataSource_query E) ++
    [Log INFO "task=refresh_schemas state=finish total_runtime=%.2f"
       [ASeconds (time_time E (S reads) - time_time E reads)]] ∧
  ∀ ds,
    ds ∈ DataSource_query E →
    DataSource.paused ds = true →
    DataSource.id ds ∈ blacklist →
    schema_decision blacklist ds =
      Log INFO "task=refresh_schema state=skip ds_id=%s reason=paused(%s)"
        [AInt (DataSource.id ds); arg_of_option (DataSource.pause_reason ds)] ∧
    (NoDup (DataSource.id <$> DataSource_query E) →
     Log INFO "task=refresh_schema state=skip ds_id=%s reason=blacklist"
       [AInt (DataSource.id ds)]
     ∉ events (refresh_schemas E (start status reads)).2).
Proof.
  intros Hbl. rewrite (refresh_schemas_run _ _ _ _ Hbl). cbn [fst snd events].
  split; [done|]. split; [done|].
  intros ds Hin Hpaused Hblack.
  assert (schema_decision blacklist ds = schema_skip_line SourcePaused ds)
    as Hdec by (unfold schema_decision; simpl; by rewrite Hpaused).
  split; [exact Hdec|].
  intros Hnd.
  rewrite !elem_of_cons, elem_of_app, list_elem_of_fmap,
    list_elem_of_singleton.
  intros [?|[?|[(ds' & Heq & Hin')|?]]]; try discriminate.
  unfold schema_decision in Heq.
  destruct (first_match _) as [reason|] eqn:Hm; [|discriminate].
  destruct reason; try discriminate.
  injection Heq as Hid.
  assert (ds = ds') as <- by by apply (NoDup_fmap_id_eq _ _ _ Hnd).
  simpl in Hm. by rewrite Hpaused in Hm.
Qed.

Lemma refresh_schemas_first_match_witness :
  ds_paused ∈ DataSource_query (sample_env false []) ∧
  DataSource.paused ds_paused = true ∧
  DataSource.id ds_paused ∈ [8%Z; 10%Z] ∧
  events (refresh_schemas (sample_env false []) (start ∅ 0)).2 =
    [Smembers "data_sources:schema:blacklist";
     Log INFO "task=refresh_schemas state=start" [];
     Delay 7;
     Log INFO "task=refresh_schema state=skip ds_id=%s reason=paused(%s)"
       [AInt 8; AStr "maintenance"];
     Log INFO "task=refresh_schema state=skip ds_id=%s reason=org_disabled"
       [AInt 9];
     Log INFO "task=refresh_schemas state=finish total_runtime=%.2f"
       [ASeconds 1]].
Proof.
  pose proof (refresh_schemas_first_match (sample_env false []) ∅ 0
                [8%Z; 10%Z] eq_refl) as (_ & Hev & _).
  split; [apply list_elem_of_In; simpl; tauto|].
  split; [reflexivity|].
  split; [apply list_elem_of_In; simpl; tauto|].
  rewrite Hev. vm_compute. reflexivity.
Defined.

(** * Further properties of the tasks *)

(** ** The dictionary of the parameters *)

(** Among parameters of the same name the last one gives the value of the
    dictionary handed to the substitution; a name no parameter has is not a
    key. *)
Theorem parameters_dict_last_wins params k :
  parameters_dict params !! k = last_value params k.
Proof.
  unfold parameters_dict, last_value.
  assert (∀ d : dict (option pvalue),
            foldl (λ d p, <[Param.name p := Param.value p]> d) d params !! k =
            match last (filter (λ p, Param.name p = k) params) with
            | Some p => Some (Param.value p)
            | None => d !! k
            end) as Hgen.
  { induction params as [|p params IH]; intros d; [done|].
    simpl. rewrite IH. rewrite filter_cons.
    destruct (decide (Param.name p = k)) as [<-|Hne].
    - destruct (filter _ params) as [|p' l] eqn:Hf; simpl.
      + by rewrite lookup_insert_eq.
      + destruct (last (p' :: l)) eqn:Hl; [done|].
        by apply last_None in Hl.
    - destruct (last _); [done|]. by rewrite lookup_insert_ne. }
  rewrite Hgen, lookup_empty. by destruct (last _).
Qed.

(** The guard [any(parameters)] depends on the names alone: it holds exactly
    when some parameter has a non-empty name, whatever the values. *)
Theorem any_parameters_dict_iff params :
  any (parameters_dict params) = true ↔
  ∃ p, p ∈ params ∧ Param.name p ≠ "".
Proof.
  rewrite any_parameters_dict, existsb_exists.
  split; intros (p & Hin & Hp); exists p;
    (split; [by apply list_elem_of_In|]);
    by destruct (Param.name p).
Qed.

(** ** What a pass records *)

Lemma pass_final_status E status reads :
  redis_status (refresh_queries E (start status reads)).2 =
    status_after E status (time_time E reads).
Proof.
  rewrite refresh_queries_run. cbv zeta.
  by destruct (match status !! "last_refresh_at" with
               | Some s => _ | None => _ end).
Qed.

Lemma pass_events_in_trace E status reads e :
  e ∈ pass_events E (time_time E reads) → e ∈ pass_trace E status reads.
Proof.
  destruct (pass_trace_eq E status reads) as (tail & -> & _).
  rewrite elem_of_app. auto.
Qed.

Lemma pass_gauge_count E status reads :
  gauge_values "manager.outdated_queries" (pass_trace E status reads) =
    [Z.of_nat (length (dispatched_ids (loop_events E (outdated_queries E))))].
Proof.
  destruct (pass_trace_eq E status reads) as (tail & -> & Htail).
  unfold gauge_values, pass_events. simpl.
  rewrite <- app_assoc, !omap_app.
  fold (gauge_values "manager.outdated_queries"
          (loop_events E (outdated_queries E))).
  rewrite gauge_values_loop. simpl.
  by destruct Htail as [->|[v ->]].
Qed.

(** The status a pass stores agrees with what it dispatched, whether the
    pass returns or raises at its end: the count it sends to the gauge and
    stores is the number of enqueue calls of the trace, the id list it
    stores lists their query ids in the order of the calls, the timestamp
    it stores is its clock reading, and the ids are taken, in order, from
    the outdated queries. *)
Theorem status_records_dispatches E status reads :
  gauge_values "manager.outdated_queries" (pass_trace E status reads) =
    [Z.of_nat (length (dispatched_ids (pass_trace E status reads)))] ∧
  redis_status (refresh_queries E (start status reads)).2
    !! "outdated_queries_count" =
    Some (str (Z.of_nat (length (dispatched_ids
                                   (pass_trace E status reads))))) ∧
  redis_status (refresh_queries E (start status reads)).2 !! "query_ids" =
    Some (json_dumps E (dispatched_ids (pass_trace E status reads))) ∧
  redis_status (refresh_queries E (start status reads)).2
    !! "last_refresh_at" = Some (repr_float E (time_time E reads)) ∧
  dispatched_ids (pass_trace E status reads)
    `sublist_of` (Query.id <$> outdated_queries E).
Proof.
  rewrite pass_gauge_count, pass_final_status, pass_dispatched_ids.
  destruct (status_after_fields E status (time_time E reads))
    as (Hcount & Hnow & Hids).
  repeat split; try done. apply loop_dispatched_ids.
Qed.

Lemma iteration_dispatches E query :
  dispatched_ids (iteration_events E query) =
    if dispatches E query then [Query.id query] else [].
Proof.
  rewrite iteration_events_eq. unfold dispatches.
  destruct (first_match _) as [reason|] eqn:Hm; [by destruct reason|].
  apply first_match_None_data_source in Hm as (ds & -> & _). simpl.
  unfold resolution_events.
  by destruct (any _); [destruct (parameterized_apply _ _ _)|].
Qed.

(** The queries a pass dispatches are exactly the outdated queries that pass
    the four checks and whose parameters are either not substituted or
    substituted with success; they are dispatched in the order of the
    outdated set. *)
Theorem dispatched_ids_filter E status reads :
  dispatched_ids (pass_trace E status reads) =
    Query.id <$> filter (λ query, dispatches E query = true)
                   (outdated_queries E).
Proof.
  rewrite pass_dispatched_ids. unfold loop_events.
  induction (outdated_queries E) as [|query queries IH]; [done|].
  rewrite bind_cons, dispatched_ids_app, IH, iteration_dispatches, filter_cons.
  destruct (dispatches E query); by destruct (decide _).
Qed.

(** A query that meets one of the four skip conditions reaches no
    collaborator in the whole pass: no substitution is called for it, it is
    not dispatched, and no failure is reported for it. *)
Theorem skipped_query_untouched E status reads query reason e :
  first_match (skip_conditions E query) = Some reason →
  e ∈ pass_trace E status reads →
  event_query e ≠ Some query.
Proof.
  intros Hm He Hq.
  destruct (pass_trace_iteration _ _ _ _ _ He Hq) as [Hin _].
  rewrite iteration_events_eq, Hm in Hin.
  apply list_elem_of_singleton in Hin. subst e. by destruct reason.
Qed.

Lemma skipped_query_untouched_witness :
  event_query (enqueue_event q_plain ds_active "SELECT 1") ≠ Some q_paused.
Proof.
  apply (skipped_query_untouched (sample_env false [q_plain; q_paused]) ∅ 0
           q_paused DataSourcePaused).
  - reflexivity.
  - apply list_elem_of_In. vm_compute. tauto.
Defined.

Lemma omap_replicate {A B} (f : A → option B) n x :
  omap f (replicate n x) =
    match f x with Some y => replicate n y | None => [] end.
Proof.
  induction n as [|n IH]; [by destruct (f x)|].
  rewrite replicate_S. cbn [omap list_omap]. rewrite IH.
  by destruct (f x).
Qed.

(** With the feature flag set a pass calls no collaborator for any query (no
    substitution, no dispatch, no failure report): every outdated query is
    skipped with the flag's log line, and the stored count is 0. *)
Theorem feature_flag_disables_pass E status reads :
  FEATURE_DISABLE_REFRESH_QUERIES E = true →
  (∀ e, e ∈ pass_trace E status reads → event_query e = None) ∧
  dispositions (pass_trace E status reads) =
    replicate (length (outdated_queries E)) (Skipped FeatureDisabled None) ∧
  redis_status (refresh_queries E (start status reads)).2
    !! "outdated_queries_count" = Some "0".
Proof.
  intros Hflag.
  assert (∀ query, iteration_events E query =
                   [Log INFO "Disabled refresh queries." []]) as Hit.
  { intros query. rewrite iteration_events_eq.
    unfold skip_conditions. simpl. by rewrite Hflag. }
  assert (∀ queries, loop_events E queries =
            replicate (length queries)
              (Log INFO "Disabled refresh queries." [])) as Hloop.
  { unfold loop_events. induction queries as [|query queries IH]; [done|].
    by rewrite bind_cons, Hit, IH. }
  split; [|split].
  - intros e He. destruct (event_query e) as [query|] eqn:Hq; [|done].
    destruct (pass_trace_iteration _ _ _ _ _ He Hq) as [Hin _].
    rewrite Hit in Hin. apply list_elem_of_singleton in Hin. by subst.
  - rewrite pass_dispositions, Hloop. unfold dispositions.
    by rewrite omap_replicate.
  - rewrite pass_final_status.
    destruct (status_after_fields E status (time_time E reads)) as (-> & _).
    rewrite Hloop. unfold dispatched_ids. by rewrite omap_replicate.
Qed.

Lemma feature_flag_disables_pass_witness :
  dispositions (pass_trace (sample_env true [q_plain; q_detached]) ∅ 0) =
    [Skipped FeatureDisabled None; Skipped FeatureDisabled None] ∧
  redis_status
    (refresh_queries (sample_env true [q_plain; q_detached]) (start ∅ 0)).2
    !! "outdated_queries_count" = Some "0".
Proof.
  pose proof (feature_flag_disables_pass
                (sample_env true [q_plain; q_detached]) ∅ 0 eq_refl)
    as (_ & Hd & Hc).
  split; [exact Hd|exact Hc].
Defined.

(** ** Substitution with an error or with success *)

Lemma string_app_empty_r (s : string) : s +:+ "" = s.
Proof.
  induction s as [|a s IH]; [reflexivity|].
  cbv [String.append]; fold String.append. by rewrite IH.
Qed.

Lemma failure_tracked_in_pass E status reads before query after d msg :
  NoDup (Query.id <$> outdated_queries E) →
  outdated_queries E = before ++ query :: after →
  iteration_events E query = [Apply query d; TrackFailure query msg] →
  (Query.id query ∉ dispatched_ids (pass_trace E status reads)) ∧
  failures_of (pass_trace E status reads) (Query.id query) = [msg] ∧
  ∃ rest,
    pass_trace E status reads =
      Log INFO "Refreshing queries..." [] ::
      loop_events E before ++
      [Apply query d; TrackFailure query msg] ++
      loop_events E after ++
      Timing "manager.outdated_queries_lookup" :: rest.
Proof.
  intros Hnd Hq Hit.
  assert (loop_events E (outdated_queries E) =
          loop_events E before ++ iteration_events E query
          ++ loop_events E after) as Hloop.
  { rewrite Hq, loop_events_app. unfold loop_events at 2.
    by rewrite bind_cons. }
  rewrite Hq, fmap_app, fmap_cons in Hnd.
  apply NoDup_app in Hnd as (_ & Hbefore & Hafter).
  apply NoDup_cons in Hafter as (Hafter & _).
  assert (Query.id query ∉ Query.id <$> before) as Hb.
  { intros Hin. apply (Hbefore _ Hin). constructor. }
  split; [|split].
  - rewrite pass_dispatched_ids, Hloop, Hit, !dispatched_ids_app. simpl.
    rewrite elem_of_app.
    intros [Hin|Hin]; by apply dispatched_ids_loop_elem in Hin.
  - destruct (pass_trace_eq E status reads) as (tail & -> & Htail).
    unfold failures_of, pass_events. simpl.
    rewrite <- !app_assoc, !omap_app, Hloop, Hit, !omap_app.
    fold (failures_of (loop_events E before) (Query.id query)).
    fold (failures_of (loop_events E after) (Query.id query)).
    rewrite !failures_of_loop_other by done. simpl.
    destruct (decide _); [|done].
    by destruct Htail as [->|[v ->]].
  - destruct (pass_trace_eq E status reads) as (tail & -> & _).
    unfold pass_events. rewrite Hloop, Hit. simpl.
    eexists. rewrite <- !app_assoc. simpl. reflexivity.
Qed.

(** A candidate that passes the checks and whose substitution raises the
    invalid-parameter error is not dispatched; the failure report receives
    one entry for it, whose message contains the id of the query and the
    text of the error; the candidates before and after it are processed as
    usual. *)
Theorem invalid_parameters_tracked E status reads before query after e :
  NoDup (Query.id <$> outdated_queries E) →
  outdated_queries E = before ++ query :: after →
  first_match (skip_conditions E query) = None →
  any (parameters_dict (Query.parameters query)) = true →
  parameterized_apply E query (parameters_dict (Query.parameters query))
    = InvalidParameterError e →
  (Query.id query ∉ dispatched_ids (pass_trace E status reads)) ∧
  failures_of (pass_trace E status reads) (Query.id query)
    = [invalid_parameters_message query e] ∧
  contains (str (Query.id query)) (invalid_parameters_message query e) ∧
  contains e (invalid_parameters_message query e) ∧
  ∃ rest,
    pass_trace E status reads =
      Log INFO "Refreshing queries..." [] ::
      loop_events E before ++
      [Apply query (parameters_dict (Query.parameters query));
       TrackFailure query (invalid_parameters_message query e)] ++
      loop_events E after ++
      Timing "manager.outdated_queries_lookup" :: rest.
Proof.
  intros Hnd Hq Hm Hany Hout.
  assert (iteration_events E query =
          [Apply query (parameters_dict (Query.parameters query));
           TrackFailure query (invalid_parameters_message query e)]) as Hit.
  { rewrite iteration_events_eq, Hm.
    apply first_match_None_data_source in Hm as (ds & -> & _). simpl.
    unfold resolution_events. by rewrite Hany, Hout. }
  destruct (failure_tracked_in_pass E status reads _ _ _ _ _ Hnd Hq Hit)
    as (Hnot & Hfail & Hrest).
  split; [exact Hnot|]. split; [exact Hfail|].
  split; [|split; [|exact Hrest]]; unfold invalid_parameters_message.
  - eexists _, _. reflexivity.
  - exists ("Skipping refresh of " +:+ str (Query.id query)
            +:+ " because of invalid parameters: "), "".
    by rewrite string_app_empty_r, !string_app_assoc.
Qed.

Lemma invalid_parameters_tracked_witness :
  (Query.id q_null_param ∉
     dispatched_ids
       (pass_trace (sample_env false [q_plain; q_null_param]) ∅ 0)) ∧
  failures_of (pass_trace (sample_env false [q_plain; q_null_param]) ∅ 0)
    (Query.id q_null_param)
    = ["Skipping refresh of 12 because of invalid parameters: The following parameter values are incompatible with their definitions: x"].
Proof.
  pose proof (invalid_parameters_tracked
                (sample_env false [q_plain; q_null_param]) ∅ 0
                [q_plain] q_null_param []
                "The following parameter values are incompatible with their definitions: x")
    as H.
  destruct H as (Hnot & Hfail & _).
  - apply (bool_decide_unpack _). vm_compute. exact I.
  - reflexivity.
  - reflexivity.
  - vm_compute. reflexivity.
  - reflexivity.
  - split; [exact Hnot|exact Hfail].
Defined.



(** ** The stored status across passes *)

Lemma pass_seconds_gauge_loop_free E now :
  gauge_values "manager.seconds_since_refresh" (pass_events E now) = [].
Proof.
  unfold gauge_values, pass_events. simpl. rewrite omap_app.
  fold (gauge_values "manager.seconds_since_refresh"
          (loop_events E (outdated_queries E))).
  by rewrite gauge_values_loop.
Qed.

(** When the stored timestamp of the earlier pass cannot be converted by
    [float], the pass raises [ValueError], but only after it has overwritten
    the status: the new timestamp is stored, and the gauge of the seconds
    since the last refresh receives nothing. *)
Theorem malformed_timestamp_raises_after_overwrite E status reads stored :
  status !! "last_refresh_at" = Some stored →
  float E stored = None →
  (refresh_queries E (start status reads)).1 = Raised ValueError ∧
  gauge_values "manager.seconds_since_refresh" (pass_trace E status reads)
    = [] ∧
  last (pass_trace E status reads) =
    Some (Hmset "redash:status"
            (status_mapping E
               (Z.of_nat (length (dispatched_ids
                                    (loop_events E (outdated_queries E)))))
               (dispatched_ids (loop_events E (outdated_queries E)))
               (time_time E reads))) ∧
  redis_status (refresh_queries E (start status reads)).2
    !! "last_refresh_at" = Some (repr_float E (time_time E reads)).
Proof.
  intros Hstored Hfloat.
  rewrite pass_final_status. unfold pass_trace.
  rewrite refresh_queries_run. cbv zeta. rewrite Hstored, Hfloat.
  cbn [fst snd events].
  split; [done|]. split; [apply pass_seconds_gauge_loop_free|].
  split; [|apply status_after_fields].
  unfold pass_events. cbv zeta. by rewrite last_cons, last_app.
Qed.

Lemma malformed_timestamp_raises_after_overwrite_witness :
  (refresh_queries (sample_env false [q_plain])
     (start {["last_refresh_at" := "yesterday"]} 0)).1 = Raised ValueError ∧
  redis_status
    (refresh_queries (sample_env false [q_plain])
       (start {["last_refresh_at" := "yesterday"]} 0)).2
    !! "last_refresh_at" = Some "1700000060.0".
Proof.
  pose proof (malformed_timestamp_raises_after_overwrite
                (sample_env false [q_plain])
                {["last_refresh_at" := "yesterday"]} 0 "yesterday"
                eq_refl eq_refl) as (Hr & _ & _ & Hs).
  split; [exact Hr|exact Hs].
Defined.

(** A pass writes the three fields of the status and nothing else: the
    fields of the hash after the pass are the three fields and the fields it
    had, and every other field keeps its value. *)
Theorem pass_keeps_other_fields E status reads key :
  key ≠ "outdated_queries_count" →
  key ≠ "last_refresh_at" →
  key ≠ "query_ids" →
  redis_status (refresh_queries E (start status reads)).2 !! key
    = status !! key ∧
  dom (redis_status (refresh_queries E (start status reads)).2) =
    {["outdated_queries_count"; "last_refresh_at"; "query_ids"]}
    ∪ dom status.
Proof.
  intros H1 H2 H3. rewrite pass_final_status.
  unfold status_after, status_mapping. split.
  - rewrite lookup_union, lookup_fmap, !lookup_insert_ne, lookup_empty by done.
    simpl. by destruct (status !! key).
  - rewrite dom_union_L, dom_fmap_L, !dom_insert_L, dom_empty_L.
    set_solver.
Qed.

Lemma pass_keeps_other_fields_witness :
  redis_status
    (refresh_queries (sample_env false [q_plain])
       (start {["started_at" := "1699990000.0"]} 0)).2 !! "started_at"
    = Some "1699990000.0".
Proof.
  pose proof (pass_keeps_other_fields (sample_env false [q_plain])
                {["started_at" := "1699990000.0"]} 0 "started_at") as H.
  destruct H as [Hkey _]; [done|done|done|].
  rewrite Hkey. reflexivity.
Defined.

Lemma pass_final_clock E status reads :
  clock_reads (refresh_queries E (start status reads)).2 = S reads.
Proof.
  rewrite refresh_queries_run. cbv zeta.
  by destruct (match status !! "last_refresh_at" with
               | Some s => _ | None => _ end).
Qed.

(** Two passes in a row, whatever the first one found in the status and
    whether or not it raised: when [float] reads back the timestamp the
    first pass stored, the second pass returns and its gauge of the seconds
    since the last refresh receives the time between the clock readings of
    the two passes. *)
Theorem second_pass_measures_gap E1 E2 status reads :
  float E2 (repr_float E1 (time_time E1 reads)) = Some (time_time E1 reads) →
  (refresh_queries E2
     (start (redis_status (refresh_queries E1 (start status reads)).2)
            (clock_reads (refresh_queries E1 (start status reads)).2))).1
    = Returned tt ∧
  gauge_values "manager.seconds_since_refresh"
    (pass_trace E2
       (redis_status (refresh_queries E1 (start status reads)).2)
       (clock_reads (refresh_queries E1 (start status reads)).2))
    = [(time_time E2 (S reads) - time_time E1 reads)%Z].
Proof.
  intros Hfloat. rewrite pass_final_status, pass_final_clock.
  unfold pass_trace. rewrite refresh_queries_run. cbv zeta.
  destruct (status_after_fields E1 status (time_time E1 reads))
    as (_ & -> & _).
  rewrite Hfloat. cbn [fst snd events]. split; [done|].
  unfold gauge_values. rewrite omap_app.
  fold (gauge_values "manager.seconds_since_refresh"
          (pass_events E2 (time_time E2 (S reads)))).
  by rewrite pass_seconds_gauge_loop_free.
Qed.

Lemma second_pass_measures_gap_witness :
  gauge_values "manager.seconds_since_refresh"
    (pass_trace (sample_env_with sample_apply float_of_clock [] [q_plain])
       (redis_status
          (refresh_queries
             (sample_env_with sample_apply float_of_clock [] [q_plain])
             (start ∅ 0)).2)
       (clock_reads
          (refresh_queries
             (sample_env_with sample_apply float_of_clock [] [q_plain])
             (start ∅ 0)).2))
    = [1%Z].
Proof.
  exact (proj2 (second_pass_measures_gap
                  (sample_env_with sample_apply float_of_clock [] [q_plain])
                  (sample_env_with sample_apply float_of_clock [] [q_plain])
                  ∅ 0 eq_refl)).
Defined.

(** ** The schema refresh task, all outcomes *)

(** When the introspection returns, the task returns, its outcome is
    [Success] and the one counter it increments is the success counter. *)
Theorem refresh_schema_success E data_source_id status reads ds :
  DataSource_get_by_id E data_source_id = Some ds →
  get_schema E ds = SchemaReturned →
  (refresh_schema E data_source_id (start status reads)).1 = Returned tt ∧
  outcomes (events (refresh_schema E data_source_id (start status reads)).2)
    = [Success] ∧
  incremented (events (refresh_schema E data_source_id (start status reads)).2)
    = ["refresh_schema.success"].
Proof.
  intros Hds Hs. by rewrite (refresh_schema_run _ _ _ _ _ Hds), Hs.
Qed.

Lemma refresh_schema_success_witness :
  outcomes (events (refresh_schema (sample_env false []) 8 (start ∅ 0)).2)
    = [Success] ∧
  incremented (events (refresh_schema (sample_env false []) 8 (start ∅ 0)).2)
    = ["refresh_schema.success"].
Proof.
  exact (proj2 (refresh_schema_success (sample_env false []) 8 ∅ 0 ds_paused
                  eq_refl eq_refl)).
Defined.

(** When no data source has the id, the lookup raises before anything else
    is done: the task raises [NoResultFound], logs nothing, calls no
    collaborator and increments no counter. *)
Theorem refresh_schema_missing_data_source E data_source_id s :
  DataSource_get_by_id E data_source_id = None →
  refresh_schema E data_source_id s = (Raised NoResultFound, s).
Proof.
  intros Hnone. unfold refresh_schema, get_by_id. rewrite Hnone. reflexivity.
Qed.

Lemma refresh_schema_missing_data_source_witness :
  refresh_schema (sample_env false []) 99 (start ∅ 0)
    = (Raised NoResultFound, start ∅ 0).
Proof.
  exact (refresh_schema_missing_data_source (sample_env false []) 99
           (start ∅ 0) eq_refl).
Defined.

(** Whatever the introspection does, a task that finds its data source
    calls the introspection once, with a forced refresh; it reports one
    outcome, whose runtime is the time between its two clock readings (one
    before the call, one after); it increments one counter; it returns, and
    it leaves the stored status alone. *)
Theorem refresh_schema_every_outcome E data_source_id status reads ds :
  DataSource_get_by_id E data_source_id = Some ds →
  (refresh_schema E data_source_id (start status reads)).1 = Returned tt ∧
  schema_calls (events (refresh_schema E data_source_id (start status reads)).2)
    = [(ds, true)] ∧
  logged_runtimes
    (events (refresh_schema E data_source_id (start status reads)).2)
    = [(time_time E (S reads) - time_time E reads)%Z] ∧
  length (outcomes
            (events (refresh_schema E data_source_id (start status reads)).2))
    = 1 ∧
  length (incremented
            (events (refresh_schema E data_source_id (start status reads)).2))
    = 1 ∧
  redis_status (refresh_schema E data_source_id (start status reads)).2
    = status ∧
  clock_reads (refresh_schema E data_source_id (start status reads)).2
    = S (S reads).
Proof.
  intros Hds. rewrite (refresh_schema_run _ _ _ _ _ Hds).
  cbn [fst snd events redis_status clock_reads].
  by destruct (get_schema E ds) as [|[]].
Qed.

Lemma refresh_schema_every_outcome_witness :
  schema_calls (events (refresh_schema (sample_env false []) 9 (start ∅ 0)).2)
    = [(ds_of_disabled_org, true)] ∧
  logged_runtimes
    (events (refresh_schema (sample_env false []) 9 (start ∅ 0)).2)
    = [1%Z].
Proof.
  pose proof (refresh_schema_every_outcome (sample_env false []) 9 ∅ 0
                ds_of_disabled_org eq_refl) as (_ & Hc & Hr & _).
  split; [exact Hc|exact Hr].
Defined.

(** ** The blacklist of the scheduler *)

Lemma blacklist_ids_None E members :
  blacklist_ids E members = None ↔
  ∃ m, m ∈ members ∧ truthy m = true ∧ int E m = None.
Proof.
  induction members as [|m members IH]; simpl.
  - split; [done|]. intros (m & Hin & _). by apply elem_of_nil in Hin.
  - destruct (truthy m) eqn:Ht.
    + destruct (int E m) as [n|] eqn:Hi.
      * rewrite fmap_None, IH. split.
        -- intros (m' & Hin & H'). exists m'. rewrite elem_of_cons. auto.
        -- intros (m' & Hin & Ht' & Hi'). exists m'.
           apply elem_of_cons in Hin as [->|Hin]; [congruence|done].
      * split; [|done]. intros _. exists m. rewrite elem_of_cons. auto.
    + rewrite IH. split.
      * intros (m' & Hin & H'). exists m'. rewrite elem_of_cons. auto.
      * intros (m' & Hin & Ht' & Hi'). exists m'.
        apply elem_of_cons in Hin as [->|Hin]; [congruence|done].
Qed.

(** A non-empty member of the blacklist that [int] cannot convert stops the
    scheduler before its first log line: it raises [ValueError] right after
    reading the set, reads no clock and submits no task, also for the data
    sources that are not blacklisted. *)
Theorem malformed_blacklist_member E status reads m :
  m ∈ smembers E "data_sources:schema:blacklist" →
  truthy m = true →
  int E m = None →
  refresh_schemas E (start status reads) =
    (Raised ValueError,
     {| events := [Smembers "data_sources:schema:blacklist"];
        redis_status := status;
        clock_reads := reads |}).
Proof.
  intros Hin Ht Hi.
  assert (blacklist_ids E (smembers E "data_sources:schema:blacklist") = None)
    as Hnone by (apply blacklist_ids_None; eauto).
  unfold refresh_schemas, redis_smembers. unfold_task. simpl.
  by rewrite Hnone.
Qed.

Lemma malformed_blacklist_member_witness :
  refresh_schemas (sample_env_with sample_apply float_of_clock ["8"; "abc"] [])
    (start ∅ 0) =
    (Raised ValueError,
     {| events := [Smembers "data_sources:schema:blacklist"];
        redis_status := ∅;
        clock_reads := 0 |}).
Proof.
  apply (malformed_blacklist_member
           (sample_env_with sample_apply float_of_clock ["8"; "abc"] [])
           ∅ 0 "abc").
  - apply list_elem_of_In. simpl. tauto.
  - reflexivity.
  - reflexivity.
Defined.

(** When every non-empty member converts, an id is blacklisted exactly when
    it is the conversion of some non-empty member: empty members are
    ignored, and nothing else is added. *)
Theorem blacklist_ids_members E members blacklist n :
  blacklist_ids E members = Some blacklist →
  n ∈ blacklist ↔ ∃ m, m ∈ members ∧ m ≠ "" ∧ int E m = Some n.
Proof.
  revert blacklist.
  induction members as [|m members IH]; intros blacklist; simpl.
  - intros [= <-]. split; [by intros ?%elem_of_nil|].
    intros (m & Hin & _). by apply elem_of_nil in Hin.
  - destruct m as [|a m']; simpl.
    + intros Hbl. rewrite (IH _ Hbl). split.
      * intros (m & Hin & H'). exists m. rewrite elem_of_cons. auto.
      * intros (m & Hin & Hne & Hi). exists m.
        apply elem_of_cons in Hin as [->|Hin]; [done|auto].
    + destruct (int E (String a m')) as [k|] eqn:Hi; [|done].
      destruct (blacklist_ids E members) as [bl|]; [|done].
      intros [= <-]. rewrite elem_of_cons, (IH _ eq_refl). split.
      * intros [->|(m & Hin & H')].
        -- exists (String a m'). rewrite elem_of_cons. auto.
        -- exists m. rewrite elem_of_cons. auto.
      * intros (m & Hin & Hne & Him).
        apply elem_of_cons in Hin as [->|Hin]; [left; congruence|].
        right. eauto.
Qed.

Lemma blacklist_ids_members_witness :
  10%Z ∈ [8%Z; 10%Z] ↔
  ∃ m, m ∈ ["8"; ""; "10"] ∧ m ≠ "" ∧ int (sample_env false []) m = Some 10%Z.
Proof.
  exact (blacklist_ids_members (sample_env false []) ["8"; ""; "10"]
           [8%Z; 10%Z] 10 eq_refl).
Defined.

(** The scheduler submits a task for exactly the data sources that are not
    paused, not blacklisted and whose organization is not disabled, once
    each, in the order of the enumeration. *)
Theorem submitted_sources E status reads blacklist :
  blacklist_ids E (smembers E "data_sources:schema:blacklist")
    = Some blacklist →
  submitted (events (refresh_schemas E (start status reads)).2) =
    DataSource.id <$>
      filter (λ ds, source_eligible blacklist ds = true) (DataSource_query E).
Proof.
  intros Hbl. rewrite (refresh_schemas_run _ _ _ _ Hbl).
  cbn [snd events]. unfold submitted. simpl. rewrite omap_app. simpl.
  rewrite app_nil_r.
  induction (DataSource_query E) as [|ds sources IH]; [done|].
  rewrite fmap_cons, filter_cons. cbn [omap list_omap]. rewrite IH.
  unfold schema_decision, source_eligible, schema_skip_conditions. simpl.
  destruct (DataSource.paused ds); [by destruct (decide _)|].
  destruct (bool_decide _); [by destruct (decide _)|].
  destruct (Organization.is_disabled _); by destruct (decide _).
Qed.

Lemma submitted_sources_witness :
  submitted (events (refresh_schemas (sample_env false []) (start ∅ 0)).2)
    = [7%Z].
Proof.
  rewrite (submitted_sources (sample_env false []) ∅ 0 [8%Z; 10%Z] eq_refl).
  vm_compute. reflexivity.
Defined.

(** ** Clearing the schedules of past scheduled queries *)

Lemma foldl_alter_lookup {S : Type} (queries : list Z)
    (rows : gmap Z (option S)) (query_id : Z) :
  foldl (λ rows query_id, alter (λ _, None) query_id rows) rows queries
    !! query_id =
    if decide (query_id ∈ queries)
    then (λ _, None) <$> rows !! query_id
    else rows !! query_id.
Proof.
  revert rows. induction queries as [|q queries IH]; intros rows.
  { destruct (decide _) as [Hin|_]; [by apply elem_of_nil in Hin|done]. }
  cbn [foldl]. rewrite IH.
  destruct (decide (query_id ∈ q :: queries)) as [Hin|Hnin];
    destruct (decide (query_id ∈ queries)) as [Hin'|Hnin'].
  - destruct (decide (query_id = q)) as [->|Hne].
    + rewrite lookup_alter_eq. by destruct (rows !! q).
    + by rewrite lookup_alter_ne.
  - apply elem_of_cons in Hin as [->|?]; [|done].
    by rewrite lookup_alter_eq.
  - exfalso. apply Hnin. by constructor.
  - apply not_elem_of_cons in Hnin as [Hne _].
    by rewrite lookup_alter_ne.
Qed.

(** After [empty_schedules] the schedule of every query that was returned as
    past scheduled is null, every other query keeps its schedule, no row is
    added or removed, and the count in the last log line is the number of
    queries returned. *)
Theorem empty_schedules_clears {S : Type} (queries : list Z)
    (schedules : gmap Z (option S)) (query_id : Z) :
  (empty_schedules queries schedules).2 !! query_id =
    (if decide (query_id ∈ queries)
     then (λ _, None) <$> schedules !! query_id
     else schedules !! query_id) ∧
  dom (empty_schedules queries schedules).2 = dom schedules ∧
  reported_count (empty_schedules queries schedules).1
    = Some (Z.of_nat (length queries)).
Proof.
  unfold empty_schedules. cbn [fst snd]. split; [|split; [|done]].
  - apply foldl_alter_lookup.
  - apply set_eq. intros k. rewrite !elem_of_dom, foldl_alter_lookup.
    destruct (decide _); [|done]. by rewrite fmap_is_Some.
Qed.

(** ** Cleaning up unused query results *)

Lemma size_list_to_set_le (l : list Z) :
  size (list_to_set l : gset Z) ≤ length l.
Proof.
  induction l as [|x l IH].
  - by rewrite list_to_set_nil, size_empty.
  - rewrite list_to_set_cons, size_union_alt, size_singleton. cbn [length].
    assert (size (list_to_set l ∖ {[x]} : gset Z)
            ≤ size (list_to_set l : gset Z)) as Hle
      by (apply subseteq_size; intros y Hy;
          apply elem_of_difference in Hy; tauto).
    lia.
Qed.

(** One run of [cleanup_query_results] removes at most
    [QUERY_RESULTS_CLEANUP_COUNT] results, all of them among the first
    selected unused ones; every other result stays; the count in the last
    log line is the number of results removed. *)
Theorem cleanup_query_results_bounded (count : nat) (max_age : Z)
    (unused : Z → list Z) (query_results : gset Z) :
  (cleanup_query_results count max_age unused query_results).2
    ⊆ query_results ∧
  (∀ id, id ∈ query_results →
     (id ∈ (cleanup_query_results count max_age unused query_results).2 ↔
      id ∉ take count (unused max_age))) ∧
  size query_results
    - size (cleanup_query_results count max_age unused query_results).2
    ≤ count ∧
  reported_count (cleanup_query_results count max_age unused query_results).1
    = Some (Z.of_nat
              (size query_results
               - size (cleanup_query_results count max_age unused
                         query_results).2)).
Proof.
  unfold cleanup_query_results. cbn [fst snd].
  set (deleted := filter (λ id, id ∈ take count (unused max_age))
                    query_results).
  assert (deleted ⊆ query_results) as Hsub
    by (intros id Hid; by apply elem_of_filter in Hid as [_ ?]).
  assert (size (query_results ∖ deleted) = size query_results - size deleted)
    as Hsize by by apply size_difference.
  assert (size deleted ≤ size query_results) as Hall
    by by apply subseteq_size.
  assert (size deleted ≤ count) as Hle.
  { transitivity (size (list_to_set (take count (unused max_age)) : gset Z)).
    - apply subseteq_size. intros id Hid.
      apply elem_of_filter in Hid as [Hid _]. by apply elem_of_list_to_set.
    - etrans; [apply size_list_to_set_le|]. rewrite length_take. lia. }
  split; [intros y Hy; apply elem_of_difference in Hy; tauto|].
  split; [|split].
  - intros id Hin. rewrite elem_of_difference. unfold deleted.
    rewrite elem_of_filter. tauto.
  - lia.
  - unfold reported_count. simpl. do 3 f_equal. lia.
Qed.

(** When the selected unused results are distinct rows of the table, one
    run removes the first [QUERY_RESULTS_CLEANUP_COUNT] of them, all of them
    when there are no more than that; the rest waits for the next run. *)
Theorem cleanup_query_results_progress (count : nat) (max_age : Z)
    (unused : Z → list Z) (query_results : gset Z) :
  NoDup (unused max_age) →
  (∀ id, id ∈ unused max_age → id ∈ query_results) →
  (cleanup_query_results count max_age unused query_results).2 =
    query_results ∖ list_to_set (take count (unused max_age)) ∧
  reported_count (cleanup_query_results count max_age unused query_results).1
    = Some (Z.of_nat (min count (length (unused max_age)))) ∧
  (∀ id, id ∈ drop count (unused max_age) →
     id ∈ (cleanup_query_results count max_age unused query_results).2).
Proof.
  intros Hnd Hin. unfold cleanup_query_results. cbn [fst snd].
  assert (filter (λ id, id ∈ take count (unused max_age)) query_results
          = list_to_set (take count (unused max_age))) as ->.
  { apply set_eq. intros id.
    rewrite elem_of_filter, elem_of_list_to_set. split; [tauto|].
    intros Hid. split; [done|]. apply Hin. by eapply subseteq_take. }
  split; [done|]. split.
  - unfold reported_count. simpl. do 3 f_equal.
    rewrite size_list_to_set, length_take; [done|].
    eapply sublist_NoDup; [exact Hnd|apply sublist_take].
  - intros id Hid. apply elem_of_difference. split.
    + apply Hin. by eapply subseteq_drop.
    + rewrite elem_of_list_to_set. intros Htake.
      rewrite <- (take_drop count (unused max_age)) in Hnd.
      apply NoDup_app in Hnd as (_ & Hdisj & _). by apply (Hdisj id).
Qed.

Lemma cleanup_query_results_progress_witness :
  (cleanup_query_results 2 7 (λ _, [4%Z; 9%Z; 6%Z])
     (list_to_set [1%Z; 4%Z; 6%Z; 9%Z])).2 =
    list_to_set [1%Z; 4%Z; 6%Z; 9%Z] ∖ list_to_set [4%Z; 9%Z] ∧
  reported_count
    (cleanup_query_results 2 7 (λ _, [4%Z; 9%Z; 6%Z])
       (list_to_set [1%Z; 4%Z; 6%Z; 9%Z])).1 = Some 2%Z.
Proof.
  pose proof (cleanup_query_results_progress 2 7 (λ _, [4%Z; 9%Z; 6%Z])
                (list_to_set [1%Z; 4%Z; 6%Z; 9%Z])) as H.
  destruct H as (Ht & Hc & _).
  - apply (bool_decide_unpack _). vm_compute. exact I.
  - intros id Hid. apply elem_of_list_to_set.
    apply list_elem_of_In in Hid. apply list_elem_of_In. simpl in *. tauto.
  - split; [exact Ht|exact Hc].
Defined.
